(** * wopr-plugin-websearch: host classifier, result filter, rate limiter
      and fallback orchestrator of [src/web-search.ts]

    A shallow embedding of the TypeScript module and the properties its
    specification states about it.

    Conventions of the embedding:
    - JavaScript strings are [string]; host names and provider names are
      ASCII in every place the module inspects them.
    - The platform functions the module calls but does not define
      ([new URL], [net.isIP], [Date.now], the back-end HTTP clients) are
      parameters: Section variables for the pure ones, an explicit world
      for the stateful ones.
    - A [try { ... } catch] around a throwing platform call is an [option]
      result matched at the place of the [catch].
    - JavaScript numbers that hold token counts are exact rationals [Q];
      time stamps are integer milliseconds [Z]. The token counts of the
      concrete scenarios below are exactly representable as binary64
      numbers, so the rational arithmetic agrees with the floating-point
      one on them. *)

From Stdlib Require Import ZArith QArith Qminmax Qround Lqa Lia Bool Ascii String List.
From Stdlib Require Import DecimalString DecimalPos DecimalN.
From stdpp Require Import gmap strings list.

Local Open Scope Z_scope.

#[local] Arguments String.append _ _ : simpl nomatch.

(* ------------------------------------------------------------------ *)
(** ** JavaScript string primitives used by the module                 *)
(* ------------------------------------------------------------------ *)

Module JS.

(** [s.startsWith(p)] *)
Fixpoint startsWith (s p : string) {struct p} : bool :=
  match p with
  | EmptyString => true
  | String c p' =>
      match s with
      | EmptyString => false
      | String d s' => if Ascii.eqb c d then startsWith s' p' else false
      end
  end.

Definition lower (c : ascii) : ascii :=
  let n := N_of_ascii c in
  if ((65 <=? n) && (n <=? 90))%N then ascii_of_N (n + 32) else c.

(** [s.toLowerCase()] on ASCII text. *)
Fixpoint toLowerCase (s : string) : string :=
  match s with
  | EmptyString => EmptyString
  | String c s' => String (lower c) (toLowerCase s')
  end.

Fixpoint dropLast (s : string) : string :=
  match s with
  | EmptyString => EmptyString
  | String c EmptyString => EmptyString
  | String c s' => String c (dropLast s')
  end.

(** [s.slice(1, -1)]: the string without its first and last character. *)
Definition slice_1_m1 (s : string) : string :=
  match s with
  | EmptyString => EmptyString
  | String _ s' => dropLast s'
  end.

(** The character classes of the regular expressions: [\d] and, under
    the [i] flag, [[0-9a-f]]. *)
Definition isDigit (c : ascii) : bool :=
  let n := N_of_ascii c in ((48 <=? n) && (n <=? 57))%N.

Definition isHexDigit (c : ascii) : bool :=
  let n := N_of_ascii c in
  (((48 <=? n) && (n <=? 57)) || ((97 <=? n) && (n <=? 102))
   || ((65 <=? n) && (n <=? 70)))%N.

Definition digitValue (c : ascii) : Z :=
  let n := Z.of_N (N_of_ascii c) in
  if isDigit c then n - 48
  else if (97 <=? n) && (n <=? 102) then n - 87
  else if (65 <=? n) && (n <=? 70) then n - 55
  else 0.

Fixpoint all (f : ascii -> bool) (s : string) : bool :=
  match s with
  | EmptyString => true
  | String c s' => f c && all f s'
  end.

(** Value of a digit string in the given radix, most significant digit
    first: [Number(s)] on a string of decimal digits, [parseInt(s, 16)]
    on a string of hexadecimal digits. *)
Fixpoint digitsValue (radix : Z) (acc : Z) (s : string) : Z :=
  match s with
  | EmptyString => acc
  | String c s' => digitsValue radix (acc * radix + digitValue c) s'
  end.

(** The longest prefix of [s] whose characters satisfy [f], and the rest. *)
Fixpoint span (f : ascii -> bool) (s : string) : string * string :=
  match s with
  | EmptyString => (EmptyString, EmptyString)
  | String c s' =>
      if f c then let (a, b) := span f s' in (String c a, b)
      else (EmptyString, s)
  end.

(** Decimal rendering of a non-negative integer, as a template literal
    [`${n}`] prints it. *)
Definition numberToString (n : Z) : string :=
  NilZero.string_of_uint (N.to_uint (Z.to_N n)).

Definition newline : string := String (ascii_of_nat 10) EmptyString.

(** [xs.join(sep)] *)
Fixpoint join (sep : string) (xs : list string) : string :=
  match xs with
  | [] => EmptyString
  | [x] => x
  | x :: rest => x +:+ sep +:+ join sep rest
  end.

End JS.

(* ------------------------------------------------------------------ *)
(** ** SSRF protection: the host classifier                            *)
(* ------------------------------------------------------------------ *)

(** The two fields of a parsed [URL] object the classifier reads. *)
Record URL := mkURL { protocol : string; hostname : string }.

Definition PRIVATE_HOSTS : gset string :=
  {[ "localhost"; "127.0.0.1"; "::1"; "0.0.0.0";
     "metadata.google.internal"; "169.254.169.254" ]}.

Definition PRIVATE_HOSTS_has (h : string) : bool :=
  bool_decide (h ∈ PRIVATE_HOSTS).

Definition PRIVATE_CIDR_PREFIXES : list string :=
  [ "10."; "127."; "169.254.";
    "172.16."; "172.17."; "172.18."; "172.19."; "172.20."; "172.21.";
    "172.22."; "172.23."; "172.24."; "172.25."; "172.26."; "172.27.";
    "172.28."; "172.29."; "172.30."; "172.31.";
    "192.168."; "0."; "100.64."; "198.18."; "198.19." ].

(** [PRIVATE_CIDR_PREFIXES.some((prefix) => s.startsWith(prefix))] *)
Definition hasPrivatePrefix (s : string) : bool :=
  existsb (JS.startsWith s) PRIVATE_CIDR_PREFIXES.

(** [hostname.startsWith("[") ? hostname.slice(1, -1) : hostname] *)
Definition stripBrackets (hostname : string) : string :=
  if JS.startsWith hostname "[" then JS.slice_1_m1 hostname else hostname.

(** [s] with the prefix [p] removed, comparing without regard to case
    ([p] is given in lower case). *)
Fixpoint stripPrefixCI (p s : string) {struct p} : option string :=
  match p with
  | EmptyString => Some s
  | String c p' =>
      match s with
      | EmptyString => None
      | String d s' =>
          if Ascii.eqb c (JS.lower d) then stripPrefixCI p' s' else None
      end
  end.

Definition lenBetween (lo hi : nat) (s : string) : bool :=
  ((lo <=? String.length s) && (String.length s <=? hi))%nat.

(** [/^::ffff:([0-9a-f]{1,4}):([0-9a-f]{1,4})$/i.exec(bare)]: the two
    captured groups. A hexadecimal group is followed by a colon or by the
    end of the input, neither of which is a hexadecimal digit, so each
    group is the whole run of hexadecimal digits at its position. *)
Definition matchMappedHex (bare : string) : option (string * string) :=
  match stripPrefixCI "::ffff:" bare with
  | None => None
  | Some rest =>
      let (g1, r1) := JS.span JS.isHexDigit rest in
      if lenBetween 1 4 g1 then
        match r1 with
        | String ":" r2 =>
            let (g2, r3) := JS.span JS.isHexDigit r2 in
            if lenBetween 1 4 g2 then
              match r3 with
              | EmptyString => Some (g1, g2)
              | _ => None
              end
            else None
        | _ => None
        end
      else None
  end.

(** One [\d{1,3}] group followed by [n] groups [\.\d{1,3}] and the end of
    the input. *)
Fixpoint matchDottedGroups (n : nat) (s : string) : bool :=
  let (g, r) := JS.span JS.isDigit s in
  if lenBetween 1 3 g then
    match n with
    | O => match r with EmptyString => true | _ => false end
    | S n' =>
        match r with
        | String "." r' => matchDottedGroups n' r'
        | _ => false
        end
    end
  else false.

(** [/^::ffff:(\d{1,3}(?:\.\d{1,3}){3})$/i.exec(bare)]: the captured group. *)
Definition matchMappedDotted (bare : string) : option string :=
  match stripPrefixCI "::ffff:" bare with
  | None => None
  | Some rest => if matchDottedGroups 3 rest then Some rest else None
  end.

Definition dottedQuad (a b c d : Z) : string :=
  JS.numberToString a +:+ "." +:+ JS.numberToString b +:+ "." +:+
  JS.numberToString c +:+ "." +:+ JS.numberToString d.

Definition extractMappedIPv4 (hostname : string) : option string :=
  let bare := stripBrackets hostname in
  match matchMappedHex bare with
  | Some (m1, m2) =>
      let hi := JS.digitsValue 16 0 m1 in
      let lo := JS.digitsValue 16 0 m2 in
      Some (dottedQuad (Z.land (Z.shiftr hi 8) 255) (Z.land hi 255)
                       (Z.land (Z.shiftr lo 8) 255) (Z.land lo 255))
  | None =>
      match matchMappedDotted bare with
      | Some dotted => Some dotted
      | None => None
      end
  end.

(** [/^\d+$/.test(hostname)] *)
Definition isDecimalLiteral (hostname : string) : bool :=
  match hostname with
  | EmptyString => false
  | _ => JS.all JS.isDigit hostname
  end.

(** [/^0x[0-9a-f]+$/i.test(hostname)] *)
Definition isHexLiteral (hostname : string) : bool :=
  match hostname with
  | String "0" (String x (String c rest)) =>
      Ascii.eqb (JS.lower x) "x" && JS.all JS.isHexDigit (String c rest)
  | _ => false
  end.

(** [Number(hostname)] for a host name accepted by [isHexLiteral]. *)
Definition hexLiteralValue (hostname : string) : Z :=
  match hostname with
  | String _ (String _ digits) => JS.digitsValue 16 0 digits
  | _ => 0
  end.

(** [(num >>> 24) & 0xff] and [(num >>> 16) & 0xff] for [num] in
    [0, 0xffffffff]. *)
Definition octetA (num : Z) : Z := Z.land (Z.shiftr num 24) 255.
Definition octetB (num : Z) : Z := Z.land (Z.shiftr num 16) 255.

Definition inUint32 (num : Z) : bool := (0 <=? num) && (num <=? 4294967295).

(** The range tests of the decimal branch, in source order. *)
Definition decimalRanges (a b : Z) : bool :=
  if a =? 127 then true
  else if a =? 10 then true
  else if (a =? 172) && (16 <=? b) && (b <=? 31) then true
  else if (a =? 192) && (b =? 168) then true
  else if (a =? 169) && (b =? 254) then true
  else if a =? 0 then true
  else if (a =? 100) && (b =? 64) then true
  else if (a =? 198) && ((b =? 18) || (b =? 19)) then true
  else false.

(** The range tests of the hexadecimal branch, in source order. *)
Definition hexRanges (a b : Z) : bool :=
  if a =? 127 then true
  else if a =? 10 then true
  else if (a =? 172) && (16 <=? b) && (b <=? 31) then true
  else if (a =? 192) && (b =? 168) then true
  else if (a =? 169) && (b =? 254) then true
  else if a =? 0 then true
  else false.

Definition isNumericPrivateIp (hostname : string) : bool :=
  if isDecimalLiteral hostname
     && (let num := JS.digitsValue 10 0 hostname in
         inUint32 num && decimalRanges (octetA num) (octetB num))
  then true
  else if isHexLiteral hostname
     && (let num := hexLiteralValue hostname in
         inUint32 num && hexRanges (octetA num) (octetB num))
  then true
  else false.

Definition isPrivateIPv6 (bare : string) : bool :=
  let lower := JS.toLowerCase bare in
  if String.eqb lower "::1" then true
  else if JS.startsWith lower "fc" || JS.startsWith lower "fd" then true
  else if JS.startsWith lower "fe80" then true
  else false.

Section HostClassifier.

(** [new URL(s)]: [None] when the constructor throws. *)
Variable new_URL : string -> option URL.
(** [isIP] of [node:net]: 4, 6, or 0 for a string that is not an IP
    address. *)
Variable isIP : string -> Z.

(** The classification of a URL the constructor accepted: the body of
    the [try] block after [new URL]. *)
Definition classifyParsed (parsed : URL) : bool :=
  let hostname := JS.toLowerCase (hostname parsed) in
  if negb (String.eqb (protocol parsed) "http:")
     && negb (String.eqb (protocol parsed) "https:") then true
  else
    let bare := stripBrackets hostname in
    if PRIVATE_HOSTS_has hostname || PRIVATE_HOSTS_has bare then true
    else
      let ipVersion := isIP bare in
      if (if ipVersion =? 4 then hasPrivatePrefix bare
          else if ipVersion =? 6 then isPrivateIPv6 bare
          else false)
      then true
      else if match extractMappedIPv4 hostname with
              | Some mappedIpv4 =>
                  PRIVATE_HOSTS_has mappedIpv4 || hasPrivatePrefix mappedIpv4
              | None => false
              end
      then true
      else if isNumericPrivateIp hostname then true
      else false.

Definition isPrivateUrl (urlStr : string) : bool :=
  match new_URL urlStr with
  | Some parsed => classifyParsed parsed
  | None => true
  end.

End HostClassifier.

(* ------------------------------------------------------------------ *)
(** ** Result filter                                                   *)
(* ------------------------------------------------------------------ *)

Record WebSearchResult := mkResult {
  title : string;
  url : string;
  snippet : string
}.

Section ResultFilter.

Variable new_URL : string -> option URL.
Variable isIP : string -> Z.

(** [results.filter((r) => !isPrivateUrl(r.url))] *)
Definition filterResults (results : list WebSearchResult)
  : list WebSearchResult :=
  List.filter (fun r => negb (isPrivateUrl new_URL isIP (url r))) results.

End ResultFilter.

(* ------------------------------------------------------------------ *)
(** ** The world the stateful part runs in                             *)
(* ------------------------------------------------------------------ *)

Record RateBucket := mkBucket {
  tokens : Q;
  lastRefill : Z;
  maxTokens : Q;
  refillRate : Q
}.

(** The three back-end client classes, with the arguments their
    constructors keep. *)
Inductive ProviderInstance :=
| GoogleSearchProvider (apiKey cx : string)
| BraveSearchProvider (apiKey : string)
| XaiSearchProvider (apiKey : string).

(** What [providerInstance.search(query, count)] settles to: the message
    of the error it rejects with, or the raw results. *)
Definition SearchResponse : Type := string + list WebSearchResult.

Record BackendCall := mkCall {
  call_name : string;
  call_instance : ProviderInstance;
  call_query : string;
  call_count : Q;
  call_response : SearchResponse
}.

(** [rateBuckets] is the module-level map; [clock] gives the value of
    each successive [Date.now()] and [ticks] counts the readings made so
    far; [calls] records the back-end searches issued, oldest first. *)
Record World := mkWorld {
  rateBuckets : gmap string RateBucket;
  clock : nat -> Z;
  ticks : nat;
  calls : list BackendCall
}.

Definition M (A : Type) : Type := World -> A * World.

#[global] Instance M_ret : MRet M := fun A a w => (a, w).

#[global] Instance M_bind : MBind M :=
  fun A B k m w => let (a, w') := m w in k a w'.

(** [Date.now()] *)
Definition Date_now : M Z :=
  fun w => (clock w (ticks w),
            mkWorld (rateBuckets w) (clock w) (S (ticks w)) (calls w)).

(** [rateBuckets.get(provider)] and [rateBuckets.set(provider, bucket)];
    a write to a field of a bucket held by the map is a [setBucket] of
    the updated record under the same key. *)
Definition lookupBucket (provider : string) : M (option RateBucket) :=
  fun w => (rateBuckets w !! provider, w).

Definition setBucket (provider : string) (bucket : RateBucket) : M unit :=
  fun w => (tt, mkWorld (<[provider := bucket]> (rateBuckets w))
                        (clock w) (ticks w) (calls w)).

(* ------------------------------------------------------------------ *)
(** ** Per-provider rate limiter (token bucket)                        *)
(* ------------------------------------------------------------------ *)

Definition getRateBucket (provider : string) : M RateBucket :=
  found ← lookupBucket provider;
  match found with
  | Some bucket => mret bucket
  | None =>
      now ← Date_now;
      let bucket := mkBucket 10%Q now 10%Q 10%Q in
      setBucket provider bucket;;
      mret bucket
  end.

(** [Math.min(bucket.maxTokens, bucket.tokens + elapsed * bucket.refillRate)]
    with [elapsed = (now - bucket.lastRefill) / 1000]. *)
Definition refilledTokens (now : Z) (bucket : RateBucket) : Q :=
  let elapsed := (inject_Z (now - lastRefill bucket) / 1000)%Q in
  Qmin (maxTokens bucket) (tokens bucket + elapsed * refillRate bucket)%Q.

(** The refill and the consumption [consumeToken] performs on the bucket
    it obtained, at the time [now] it read. *)
Definition refillAndConsume (now : Z) (bucket : RateBucket)
  : bool * RateBucket :=
  let refilled := refilledTokens now bucket in
  if Qlt_le_dec refilled 1
  then (false, mkBucket refilled now (maxTokens bucket) (refillRate bucket))
  else (true,
        mkBucket (refilled - 1)%Q now (maxTokens bucket) (refillRate bucket)).

Definition consumeToken (provider : string) : M bool :=
  bucket ← getRateBucket provider;
  now ← Date_now;
  let (granted, bucket') := refillAndConsume now bucket in
  setBucket provider bucket';;
  mret granted.

(* ------------------------------------------------------------------ *)
(** ** Provider factory                                                *)
(* ------------------------------------------------------------------ *)

Record GoogleConfig := mkGoogleConfig {
  google_apiKey : option string;
  google_cx : option string
}.

Record KeyConfig := mkKeyConfig { key_apiKey : option string }.

Record ProvidersConfig := mkProvidersConfig {
  cfg_google : option GoogleConfig;
  cfg_brave : option KeyConfig;
  cfg_xai : option KeyConfig
}.

Record WebSearchPluginConfig := mkConfig {
  providerOrder : option (list string);
  providers : option ProvidersConfig
}.

(** [a ?? b] *)
Definition nullish {A} (a b : option A) : option A :=
  match a with
  | Some x => Some x
  | None => b
  end.

(** [a?.f] *)
Definition optChain {A B} (a : option A) (f : A -> option B) : option B :=
  match a with
  | Some x => f x
  | None => None
  end.

(** [!s] for a string that may be undefined. *)
Definition falsy (s : option string) : bool :=
  match s with
  | None => true
  | Some EmptyString => true
  | Some _ => false
  end.

Definition orEmpty (s : option string) : string :=
  match s with
  | Some x => x
  | None => EmptyString
  end.

Section ProviderFactory.

(** [process.env] *)
Variable env : gmap string string.

Definition buildProvider (name : string) (config : WebSearchPluginConfig)
  : option ProviderInstance :=
  if String.eqb name "google" then
    let apiKey :=
      nullish (env !! "GOOGLE_SEARCH_API_KEY")
              (optChain (optChain (providers config) cfg_google)
                        google_apiKey) in
    let cx :=
      nullish (env !! "GOOGLE_SEARCH_CX")
              (optChain (optChain (providers config) cfg_google)
                        google_cx) in
    if falsy apiKey || falsy cx then None
    else Some (GoogleSearchProvider (orEmpty apiKey) (orEmpty cx))
  else if String.eqb name "brave" then
    let apiKey :=
      nullish (env !! "BRAVE_SEARCH_API_KEY")
              (optChain (optChain (providers config) cfg_brave)
                        key_apiKey) in
    if falsy apiKey then None
    else Some (BraveSearchProvider (orEmpty apiKey))
  else if String.eqb name "xai" then
    let apiKey :=
      nullish (env !! "XAI_API_KEY")
              (optChain (optChain (providers config) cfg_xai)
                        key_apiKey) in
    if falsy apiKey then None
    else Some (XaiSearchProvider (orEmpty apiKey))
  else None.

End ProviderFactory.

Definition DEFAULT_PROVIDER_ORDER : list string := ["google"; "brave"; "xai"].

(** [["google", "brave", "xai"].includes(n)] *)
Definition isKnownProvider (n : string) : bool :=
  existsb (String.eqb n) ["google"; "brave"; "xai"].

Definition getProviderOrder (config : WebSearchPluginConfig) : list string :=
  match providerOrder config with
  | Some (n :: order') => List.filter isKnownProvider (n :: order')
  | _ => DEFAULT_PROVIDER_ORDER
  end.

(* ------------------------------------------------------------------ *)
(** ** The [web_search] tool handler                                   *)
(* ------------------------------------------------------------------ *)

Record HandlerArgs := mkArgs {
  arg_query : string;
  arg_count : option Q;
  arg_provider : option string
}.

(** The object the handler serialises on success. *)
Record SearchPayload := mkPayload {
  payload_provider : string;
  payload_query : string;
  payload_resultCount : nat;
  payload_results : list WebSearchResult
}.

(** The text of the single content item: the JSON rendering of a payload,
    or plain text. *)
Inductive ContentText :=
| JsonText (p : SearchPayload)
| PlainText (s : string).

Record A2AToolResult := mkToolResult {
  content : ContentText;
  isError : bool
}.

Definition successResult (providerName query : string)
    (results : list WebSearchResult) : A2AToolResult :=
  mkToolResult
    (JsonText (mkPayload providerName query (List.length results) results))
    false.

Definition failureHeader : string := "All search providers failed:" +:+ JS.newline.

Definition failureFooter : string :=
  JS.newline +:+ JS.newline +:+
  "Configure at least one provider via environment variables or config:"
  +:+ JS.newline +:+ "  GOOGLE_SEARCH_API_KEY + GOOGLE_SEARCH_CX"
  +:+ JS.newline +:+ "  BRAVE_SEARCH_API_KEY"
  +:+ JS.newline +:+ "  XAI_API_KEY".

Definition failureResult (errors : list string) : A2AToolResult :=
  mkToolResult
    (PlainText
       (failureHeader
        +:+ JS.join JS.newline (List.map (fun e => "  - " +:+ e) errors)
        +:+ failureFooter))
    true.

(** [Math.max(1, Math.min(rawCount ?? 5, 20))] *)
Definition clampCount (rawCount : option Q) : Q :=
  Qmax 1%Q (Qmin (default 5%Q rawCount) 20%Q).

Section Handler.

Variable new_URL : string -> option URL.
Variable isIP : string -> Z.
Variable env : gmap string string.
(** The response of a back end to a search, which may depend on
    everything that happened before the call. *)
Variable backend : World -> ProviderInstance -> string -> Q -> SearchResponse.

Variable config : WebSearchPluginConfig.

(** [await providerInstance.search(query, count)] inside the [try]. *)
Definition search (providerName : string) (inst : ProviderInstance)
    (query : string) (count : Q) : M SearchResponse :=
  fun w =>
    let response := backend w inst query count in
    (response,
     mkWorld (rateBuckets w) (clock w) (ticks w)
             (calls w ++ [mkCall providerName inst query count response])).

(** One iteration of the loop over the candidates: [inl] is the
    diagnostic pushed on [errors] before going on to the next
    candidate, [inr] the result the handler returns. *)
Definition tryProvider (query : string) (count : Q) (providerName : string)
  : M (string + A2AToolResult) :=
  match buildProvider env providerName config with
  | None => mret (inl (providerName +:+ ": not configured"))
  | Some providerInstance =>
      granted ← consumeToken providerName;
      if negb granted then mret (inl (providerName +:+ ": rate limited"))
      else
        response ← search providerName providerInstance query count;
        match response with
        | inr raw =>
            let results := filterResults new_URL isIP raw in
            mret (inr (successResult providerName query results))
        | inl msg => mret (inl (providerName +:+ ": " +:+ msg))
        end
  end.

Fixpoint tryProviders (query : string) (count : Q) (order : list string)
    (errors : list string) : M A2AToolResult :=
  match order with
  | [] => mret (failureResult errors)
  | providerName :: rest =>
      outcome ← tryProvider query count providerName;
      match outcome with
      | inr result => mret result
      | inl diagnostic =>
          tryProviders query count rest (errors ++ [diagnostic])
      end
  end.

(** [forcedProvider ? [forcedProvider] : getProviderOrder(config)]; the
    empty string is falsy. *)
Definition candidateOrder (forcedProvider : option string) : list string :=
  if falsy forcedProvider then getProviderOrder config
  else [orEmpty forcedProvider].

Definition handler (args : HandlerArgs) : M A2AToolResult :=
  let query := arg_query args in
  let rawCount := arg_count args in
  let forcedProvider := arg_provider args in
  let count := clampCount rawCount in
  let order := candidateOrder forcedProvider in
  tryProviders query count order [].

End Handler.

(* ------------------------------------------------------------------ *)
(** ** A platform instance for the examples                            *)
(* ------------------------------------------------------------------ *)

Module Platform.

Definition isAlpha (c : ascii) : bool :=
  let n := N_of_ascii (JS.lower c) in ((97 <=? n) && (n <=? 122))%N.

Definition isSchemeChar (c : ascii) : bool :=
  isAlpha c || JS.isDigit c
  || Ascii.eqb c "+" || Ascii.eqb c "-" || Ascii.eqb c ".".

Definition notEndOfAuthority (c : ascii) : bool :=
  negb (Ascii.eqb c "/" || Ascii.eqb c "?" || Ascii.eqb c "#").

Definition notColon (c : ascii) : bool := negb (Ascii.eqb c ":").
Definition notCloseBracket (c : ascii) : bool := negb (Ascii.eqb c "]").

(** A parser for the plain absolute URLs of the examples,
    [scheme://host[:port][/path]]: it fails on a string with no scheme
    and keeps the host as it is written (the parser of the platform
    also rewrites a numeric host of an http(s) URL in dotted-decimal
    form and an IPv6 host in its compressed hexadecimal form). *)
Definition simpleURL (s : string) : option URL :=
  match s with
  | EmptyString => None
  | String c0 _ =>
      if isAlpha c0 then
        let (scheme, r) := JS.span isSchemeChar s in
        match r with
        | String ":" (String "/" (String "/" r')) =>
            let (authority, _) := JS.span notEndOfAuthority r' in
            let host :=
              if JS.startsWith authority "[" then
                let (h, _) := JS.span notCloseBracket authority in h +:+ "]"
              else fst (JS.span notColon authority) in
            Some (mkURL (JS.toLowerCase scheme +:+ ":") host)
        | String ":" _ => Some (mkURL (JS.toLowerCase scheme +:+ ":") "")
        | _ => None
        end
      else None
  end.

Definition hasColon (s : string) : bool :=
  match snd (JS.span notColon s) with
  | EmptyString => false
  | _ => true
  end.

(** [n + 1] non-empty groups of decimal digits separated by dots:
    [/^\d+(\.\d+){n}$/]. *)
Fixpoint digitGroups (n : nat) (s : string) : bool :=
  let (g, r) := JS.span JS.isDigit s in
  match g with
  | EmptyString => false
  | _ =>
      match n with
      | O => match r with EmptyString => true | _ => false end
      | S n' =>
          match r with
          | String "." r' => digitGroups n' r'
          | _ => false
          end
      end
  end.

(** The stand-in for [isIP] that the test suite installs:
    [/^\d+\.\d+\.\d+\.\d+$/] gives 4, a host containing a colon gives 6,
    anything else 0. *)
Definition isIP (host : string) : Z :=
  if digitGroups 3 host then 4
  else if hasColon host then 6
  else 0.

(** A clock that stands still at [t]. *)
Definition frozenClock (t : Z) : nat -> Z := fun _ => t.

Definition freshWorld (c : nat -> Z) : World := mkWorld ∅ c 0 [].

End Platform.

(* ------------------------------------------------------------------ *)
(** ** Vocabulary of the specification                                 *)
(* ------------------------------------------------------------------ *)

(** The reserved IPv4 ranges of the prefix table, by the first two
    octets of an address. *)
Definition reservedOctets (a b : Z) : Prop :=
  a = 10 \/ a = 127 \/ (a = 169 /\ b = 254) \/ (a = 172 /\ 16 <= b <= 31)
  \/ (a = 192 /\ b = 168) \/ a = 0 \/ (a = 100 /\ b = 64)
  \/ (a = 198 /\ 18 <= b <= 19).

(** A group of one to four hexadecimal digits, and a group of one to
    three decimal digits. *)
Definition hexGroup (g : string) : Prop :=
  (1 <= String.length g <= 4)%nat /\ JS.all JS.isHexDigit g = true.

Definition decGroup (g : string) : Prop :=
  (1 <= String.length g <= 3)%nat /\ JS.all JS.isDigit g = true.

(** [MappedIPv4 literal embedded]: [literal] is an IPv4-mapped IPv6
    literal, written without its brackets, and [embedded] is the text
    of the IPv4 address it carries: for two hexadecimal groups the four
    octets of the 32-bit value, for a dotted quad the quad itself. *)
Inductive MappedIPv4 : string -> string -> Prop :=
| MappedHexGroups g1 g2 :
    hexGroup g1 -> hexGroup g2 ->
    MappedIPv4 ("::ffff:" +:+ g1 +:+ ":" +:+ g2)
      (dottedQuad (JS.digitsValue 16 0 g1 / 256)
                  (JS.digitsValue 16 0 g1 mod 256)
                  (JS.digitsValue 16 0 g2 / 256)
                  (JS.digitsValue 16 0 g2 mod 256))
| MappedDottedQuad a b c d :
    decGroup a -> decGroup b -> decGroup c -> decGroup d ->
    MappedIPv4 ("::ffff:" +:+ a +:+ "." +:+ b +:+ "." +:+ c +:+ "." +:+ d)
      (a +:+ "." +:+ b +:+ "." +:+ c +:+ "." +:+ d).

(** The host name is the literal, in brackets as [URL] prints an IPv6
    host, or bare. *)
Definition hostIsLiteral (host literal : string) : Prop :=
  host = "[" +:+ literal +:+ "]" \/ host = literal.

(** [n] successive calls of [consumeToken] for one provider, with their
    answers in order. *)
Fixpoint consumeTimes (n : nat) (provider : string) : M (list bool) :=
  match n with
  | O => mret []
  | S n' =>
      granted ← consumeToken provider;
      rest ← consumeTimes n' provider;
      mret (granted :: rest)
  end.

(** A sequence of [consumeToken] calls, one per listed provider. *)
Fixpoint consumeEach (providers : list string) : M (list bool) :=
  match providers with
  | [] => mret []
  | provider :: rest =>
      granted ← consumeToken provider;
      others ← consumeEach rest;
      mret (granted :: others)
  end.

(** Every bucket of the world holds between zero and [maxTokens] tokens. *)
Definition tokensInRange (w : World) : Prop :=
  forall provider bucket,
    rateBuckets w !! provider = Some bucket ->
    (0 <= tokens bucket /\ tokens bucket <= maxTokens bucket)%Q.

(** The clock never runs backwards. *)
Definition monotoneClock (c : nat -> Z) : Prop :=
  forall i j, (i <= j)%nat -> c i <= c j.

(** The invariant of the bucket map under a clock that does not run
    backwards: tokens in range, a non-negative refill rate, and no
    refill time later than a reading still to come. *)
Definition bucketsOk (w : World) : Prop :=
  forall provider bucket,
    rateBuckets w !! provider = Some bucket ->
    (0 <= tokens bucket /\ tokens bucket <= maxTokens bucket)%Q
    /\ (0 <= refillRate bucket)%Q
    /\ forall n, (ticks w <= n)%nat -> lastRefill bucket <= clock w n.

(** A clock that is set back by two seconds after its first two
    readings. *)
Definition clockSetBack : nat -> Z :=
  fun i => match i with
           | O | S O => 5000
           | _ => 3000
           end.

(** The bucket of [provider] holds [T] tokens, was last refilled at
    [last], and has the capacity and rate every bucket is created with. *)
Definition bucketState (w : World) (provider : string) (T : Q) (last : Z)
  : Prop :=
  exists b,
    rateBuckets w !! provider = Some b
    /\ (tokens b == T)%Q /\ lastRefill b = last
    /\ (maxTokens b == 10)%Q /\ (refillRate b == 10)%Q.

Section Attempts.

Variable new_URL : string -> option URL.
Variable isIP : string -> Z.
Variable env : gmap string string.
Variable backend : World -> ProviderInstance -> string -> Q -> SearchResponse.
Variable config : WebSearchPluginConfig.

(** What one iteration of the loop does, by cases. *)
Inductive Attempt (query : string) (count : Q) (name : string) (w : World)
  : (string + A2AToolResult) * World -> Prop :=
| NotConfigured :
    buildProvider env name config = None ->
    Attempt query count name w (inl (name +:+ ": not configured"), w)
| RateLimited inst w1 :
    buildProvider env name config = Some inst ->
    consumeToken name w = (false, w1) ->
    Attempt query count name w (inl (name +:+ ": rate limited"), w1)
| BackendFailed inst w1 msg :
    buildProvider env name config = Some inst ->
    consumeToken name w = (true, w1) ->
    backend w1 inst query count = inl msg ->
    Attempt query count name w
      (inl (name +:+ ": " +:+ msg),
       mkWorld (rateBuckets w1) (clock w1) (ticks w1)
               (calls w1 ++ [mkCall name inst query count (inl msg)]))
| BackendAnswered inst w1 raw :
    buildProvider env name config = Some inst ->
    consumeToken name w = (true, w1) ->
    backend w1 inst query count = inr raw ->
    Attempt query count name w
      (inr (successResult name query (filterResults new_URL isIP raw)),
       mkWorld (rateBuckets w1) (clock w1) (ticks w1)
               (calls w1 ++ [mkCall name inst query count (inr raw)])).

End Attempts.


(** A scenario for the examples: Google and Brave have credentials in
    the environment, Google's back end answers with an HTTP error,
    Brave's returns a single result that points at the loopback
    address, xAI's returns one public result. *)
Definition sampleEnv : gmap string string :=
  <["GOOGLE_SEARCH_API_KEY" := "test-key"]>
    (<["GOOGLE_SEARCH_CX" := "test-cx"]>
       (<["BRAVE_SEARCH_API_KEY" := "test-brave-key"]> ∅)).

Definition sampleBackend (w : World) (inst : ProviderInstance)
    (query : string) (count : Q) : SearchResponse :=
  match inst with
  | GoogleSearchProvider _ _ =>
      inl "Google Search API returned 500: Server Error"
  | BraveSearchProvider _ =>
      inr [ mkResult "Bad" "http://127.0.0.1/secret" "Private" ]
  | XaiSearchProvider _ => inr [ mkResult "xAI Result" "https://xai.com/1" "" ]
  end.

Definition emptyConfig : WebSearchPluginConfig := mkConfig None None.

Definition sampleHandler (args : HandlerArgs) : M A2AToolResult :=
  handler Platform.simpleURL Platform.isIP sampleEnv sampleBackend
          emptyConfig args.

(** A result whose URL the classifier lets through. *)
Definition safeResult (new_URL : string -> option URL) (isIP : string -> Z)
    (r : WebSearchResult) : Prop :=
  isPrivateUrl new_URL isIP (url r) = false.

(** The credential [config.providers?.<pick>?.<field>] of the
    configuration. *)
Definition configuredCredential {A} (config : WebSearchPluginConfig)
    (pick : ProvidersConfig -> option A) (field : A -> option string)
  : option string :=
  optChain (optChain (providers config) pick) field.

Definition sampleResults : list WebSearchResult :=
  [ mkResult "Good" "https://example.com/1" "Public";
    mkResult "Bad" "http://127.0.0.1/secret" "Private";
    mkResult "Also Bad" "http://169.254.169.254/metadata" "Cloud metadata";
    mkResult "Fine" "https://www.google.com" "Public" ].

Definition braveConfig (key : string) : WebSearchPluginConfig :=
  mkConfig None
    (Some (mkProvidersConfig None (Some (mkKeyConfig (Some key))) None)).


(** The text of an IPv4 address is on the symbolic deny list or starts
    with a reserved prefix. *)
Definition reservedIPv4Text (ip : string) : Prop :=
  ip ∈ PRIVATE_HOSTS
  \/ exists prefix,
       prefix ∈ PRIVATE_CIDR_PREFIXES /\ JS.startsWith ip prefix = true.

(* ------------------------------------------------------------------ *)
(** ** Vocabulary for IPv4 addresses and their spellings               *)
(* ------------------------------------------------------------------ *)

Definition isOctet (x : Z) : Prop := 0 <= x < 256.



(** The value of a decimal numeral, most significant digit first,
    starting from [acc]. *)
Fixpoint uintValue (acc : Z) (d : Decimal.uint) : Z :=
  match d with
  | Decimal.Nil => acc
  | Decimal.D0 d' => uintValue (acc * 10 + 0) d'
  | Decimal.D1 d' => uintValue (acc * 10 + 1) d'
  | Decimal.D2 d' => uintValue (acc * 10 + 2) d'
  | Decimal.D3 d' => uintValue (acc * 10 + 3) d'
  | Decimal.D4 d' => uintValue (acc * 10 + 4) d'
  | Decimal.D5 d' => uintValue (acc * 10 + 5) d'
  | Decimal.D6 d' => uintValue (acc * 10 + 6) d'
  | Decimal.D7 d' => uintValue (acc * 10 + 7) d'
  | Decimal.D8 d' => uintValue (acc * 10 + 8) d'
  | Decimal.D9 d' => uintValue (acc * 10 + 9) d'
  end.

(** The prefixes of the table are one or two decimal octets, each
    followed by a dot. *)
Definition prefixOf1 (p : string) : string := p +:+ ".".
Definition prefixOf2 (p q : string) : string := p +:+ String "." (q +:+ ".").

(** A lower-case ASCII letter. *)
Definition isLowerLetter (c : ascii) : bool :=
  let n := N_of_ascii c in ((97 <=? n) && (n <=? 122))%N.

(** The number of granted calls in a list of answers. *)
Fixpoint countGranted (answers : list bool) : Z :=
  match answers with
  | [] => 0
  | granted :: rest => (if granted then 1 else 0) + countGranted rest
  end.

(** The part of the bucket invariant that needs no assumption on the
    clock. *)
Definition bucketsCapped (w : World) : Prop :=
  forall provider bucket,
    rateBuckets w !! provider = Some bucket ->
    (tokens bucket <= 10)%Q /\ maxTokens bucket = 10%Q
    /\ refillRate bucket = 10%Q.

(** A clock that advances by [step] milliseconds at every reading. *)
Definition steadyClock (t0 step : Z) : nat -> Z :=
  fun i => t0 + step * Z.of_nat i.

(** A world whose only bucket is an empty one for Brave, last refilled
    at 500 ms, read at 1500 ms. *)
Definition drainedWorld : World :=
  mkWorld (<["brave" := mkBucket 0%Q 500 10%Q 10%Q]> ∅) (fun _ => 1500) 0 [].

(** The credential [process.env.<variable> ?? config.providers?.<pick>?.<field>]
    a client is built from. *)
Definition resolvedCredential {A} (env : gmap string string)
    (config : WebSearchPluginConfig) (variable : string)
    (pick : ProvidersConfig -> option A) (field : A -> option string)
  : option string :=
  nullish (env !! variable) (configuredCredential config pick field).

(** A configuration that holds a Google API key and nothing else. *)
Definition googleKeyOnlyConfig : WebSearchPluginConfig :=
  mkConfig None
    (Some (mkProvidersConfig (Some (mkGoogleConfig (Some "key") None))
                             None None)).



(* ------------------------------------------------------------------ *)
(** ** The back-end clients                                            *)
(* ------------------------------------------------------------------ *)

(** The three clients of [src/providers] call [fetch] and read the
    response.  What [fetch] settles to is a parameter: the message of
    the error it rejects with, or a response.  A response body is taken
    at the type the client declares for it, a field being a string or
    absent; a number sent in a request is kept as a number. *)

(** [s.slice(0, n)] for a natural number [n]. *)
Fixpoint String_slice0 (n : nat) (s : string) : string :=
  match n, s with
  | S n', String c s' => String c (String_slice0 n' s')
  | _, _ => EmptyString
  end.

(** The integer an index argument is converted to: the number without
    its fraction. *)
Definition toIntegerOrInfinity (x : Q) : Z :=
  if Qle_bool 0 x then Qfloor x else Qceiling x.

(** [xs.slice(0, to)]: a negative [to] counts from the end of the
    array. *)
Definition Array_slice0 {A} (to : Q) (xs : list A) : list A :=
  let len := Z.of_nat (List.length xs) in
  let relativeEnd := toIntegerOrInfinity to in
  let final :=
    if relativeEnd <? 0 then Z.max (len + relativeEnd) 0
    else Z.min relativeEnd len in
  take (Z.to_nat final) xs.

(** A response: [response.ok], [response.status], what
    [response.text()] settles to ([None] when it rejects) and what
    [response.json()] settles to ([inl] the message of the error it
    rejects with). *)
Record Response (J : Type) := mkResponse {
  response_ok : bool;
  response_status : N;
  response_text : option string;
  response_json : string + J
}.

Arguments mkResponse {J} _ _ _ _.
Arguments response_ok {J} _.
Arguments response_status {J} _.
Arguments response_text {J} _.
Arguments response_json {J} _.

Definition Fetched (J : Type) : Type := string + Response J.

(** The message of the error a client throws on a response that is not
    ok: [`<api> API returned ${response.status}: ${text.slice(0, 200)}`]
    with [text = await response.text().catch(() => "")]. *)
Definition httpError {J} (api : string) (response : Response J) : string :=
  let text := default "" (response_text response) in
  api +:+ " API returned "
  +:+ JS.numberToString (Z.of_N (response_status response))
  +:+ ": " +:+ String_slice0 200 text.

(** *** Brave *)

(** The request of the Brave client: the two query parameters and the
    subscription header. *)
Record BraveRequest := mkBraveRequest {
  brave_q : string;
  brave_count : Q;
  brave_X_Subscription_Token : string
}.

Record BraveItem := mkBraveItem {
  b_title : option string;
  b_url : option string;
  b_description : option string
}.

Record BraveWeb := mkBraveWeb { web_results : option (list BraveItem) }.

Record BraveData := mkBraveData { brave_web : option BraveWeb }.

Definition braveRequest (apiKey query : string) (count : Q) : BraveRequest :=
  let num := Qmin count 20%Q in
  mkBraveRequest query num apiKey.

Definition braveResult (item : BraveItem) : WebSearchResult :=
  mkResult (default "" (b_title item)) (default "" (b_url item))
           (default "" (b_description item)).

(** *** Google *)

Record GoogleRequest := mkGoogleRequest {
  google_key : string;
  google_cx_param : string;
  google_q : string;
  google_num : Q
}.

Record GoogleItem := mkGoogleItem {
  g_title : option string;
  g_link : option string;
  g_snippet : option string
}.

Record GoogleData := mkGoogleData { google_items : option (list GoogleItem) }.

Definition googleRequest (apiKey cx query : string) (count : Q)
  : GoogleRequest :=
  let num := Qmin count 10%Q in
  mkGoogleRequest apiKey cx query num.

Definition googleResult (item : GoogleItem) : WebSearchResult :=
  mkResult (default "" (g_title item)) (default "" (g_link item))
           (default "" (g_snippet item)).

(** *** xAI *)

(** The request of the xAI client: the authorization header, the query
    and the number of results its prompt asks for, and the limit in
    [search_parameters]. *)
Record XaiRequest := mkXaiRequest {
  xai_Authorization : string;
  xai_prompt_query : string;
  xai_prompt_top : Q;
  xai_max_search_results : Q
}.

Record XaiMessage := mkXaiMessage { message_content : option string }.

Record XaiChoice := mkXaiChoice { choice_message : option XaiMessage }.

Record XaiCitation := mkXaiCitation {
  c_url : option string;
  c_title : option string
}.

Record XaiData := mkXaiData {
  xai_choices : option (list XaiChoice);
  xai_citations : option (list XaiCitation)
}.

(** An element of the array the model wrote. *)
Record XaiItem := mkXaiItem {
  m_title : option string;
  m_url : option string;
  m_snippet : option string
}.

Definition xaiRequest (apiKey query : string) (count : Q) : XaiRequest :=
  mkXaiRequest ("Bearer " +:+ apiKey) query (Qmin count 10%Q)
               (Qmin count 10%Q).

Definition citationResult (c : XaiCitation) : WebSearchResult :=
  mkResult (default "" (c_title c)) (default "" (c_url c)) "".

Definition itemResult (item : XaiItem) : WebSearchResult :=
  mkResult (default "" (m_title item)) (default "" (m_url item))
           (default "" (m_snippet item)).

(** [data.choices?.[0]?.message?.content] *)
Definition firstChoiceContent (data : XaiData) : option string :=
  optChain (optChain (optChain (xai_choices data) head) choice_message)
           message_content.

(** The match of [/\[[\s\S]*\]/]: it starts at the first opening
    bracket and ends at the last closing bracket after it. *)
Fixpoint fromFirstOpen (s : string) : option string :=
  match s with
  | EmptyString => None
  | String c s' => if Ascii.eqb c "[" then Some s else fromFirstOpen s'
  end.

Fixpoint uptoLastClose (s : string) : option string :=
  match s with
  | EmptyString => None
  | String c s' =>
      match uptoLastClose s' with
      | Some t => Some (String c t)
      | None => if Ascii.eqb c "]" then Some (String c EmptyString) else None
      end
  end.

Definition matchJsonArray (content : string) : option string :=
  match fromFirstOpen content with
  | Some s => uptoLastClose s
  | None => None
  end.

(** [items.map((item) => ...)] over the parsed array: reading a field
    of a [null] element throws. *)
Fixpoint mapItems (items : list (option XaiItem))
  : option (list WebSearchResult) :=
  match items with
  | [] => Some []
  | None :: _ => None
  | Some item :: rest =>
      match mapItems rest with
      | Some results => Some (itemResult item :: results)
      | None => None
      end
  end.

Section Clients.

Variable fetch_brave : BraveRequest -> Fetched BraveData.
Variable fetch_google : GoogleRequest -> Fetched GoogleData.
Variable fetch_xai : XaiRequest -> Fetched XaiData.
(** [JSON.parse] on a text that begins and ends with a bracket: [None]
    when it throws, else the array, whose elements are [null] or hold
    the fields read from them. *)
Variable JSON_parse : string -> option (list (option XaiItem)).

Definition BraveSearchProvider_search (apiKey query : string) (count : Q)
  : SearchResponse :=
  match fetch_brave (braveRequest apiKey query count) with
  | inl rejection => inl rejection
  | inr response =>
      if negb (response_ok response)
      then inl (httpError "Brave Search" response)
      else
        match response_json response with
        | inl rejection => inl rejection
        | inr data =>
            inr (List.map braveResult
                   (default [] (optChain (brave_web data) web_results)))
        end
  end.

Definition GoogleSearchProvider_search (apiKey cx query : string) (count : Q)
  : SearchResponse :=
  match fetch_google (googleRequest apiKey cx query count) with
  | inl rejection => inl rejection
  | inr response =>
      if negb (response_ok response)
      then inl (httpError "Google Search" response)
      else
        match response_json response with
        | inl rejection => inl rejection
        | inr data =>
            inr (List.map googleResult (default [] (google_items data)))
        end
  end.

(** The fall-back of the xAI client inside its [try]: any throw gives
    the empty list. *)
Definition parseModelText (content : string) (count : Q)
  : list WebSearchResult :=
  match matchJsonArray content with
  | None => []
  | Some jsonMatch =>
      match JSON_parse jsonMatch with
      | None => []
      | Some parsed => default [] (mapItems (Array_slice0 count parsed))
      end
  end.

Definition XaiSearchProvider_search (apiKey query : string) (count : Q)
  : SearchResponse :=
  match fetch_xai (xaiRequest apiKey query count) with
  | inl rejection => inl rejection
  | inr response =>
      if negb (response_ok response)
      then inl (httpError "xAI" response)
      else
        match response_json response with
        | inl rejection => inl rejection
        | inr data =>
            match xai_citations data with
            | Some (c :: cs) =>
                inr (List.map citationResult (Array_slice0 count (c :: cs)))
            | _ =>
                let content := default "[]" (firstChoiceContent data) in
                inr (parseModelText content count)
            end
        end
  end.

(** [providerInstance.search(query, count)] *)
Definition providerSearch (inst : ProviderInstance) (query : string)
    (count : Q) : SearchResponse :=
  match inst with
  | GoogleSearchProvider apiKey cx =>
      GoogleSearchProvider_search apiKey cx query count
  | BraveSearchProvider apiKey => BraveSearchProvider_search apiKey query count
  | XaiSearchProvider apiKey => XaiSearchProvider_search apiKey query count
  end.

End Clients.

(** The back ends of the handler when [fetch] may answer differently
    from one moment to the next. *)
Definition clients
    (fetch_brave : World -> BraveRequest -> Fetched BraveData)
    (fetch_google : World -> GoogleRequest -> Fetched GoogleData)
    (fetch_xai : World -> XaiRequest -> Fetched XaiData)
    (JSON_parse : string -> option (list (option XaiItem)))
  : World -> ProviderInstance -> string -> Q -> SearchResponse :=
  fun w =>
    providerSearch (fetch_brave w) (fetch_google w) (fetch_xai w) JSON_parse.

(** A client reports a response [r] that is not ok: the message names
    the API and the status and quotes at most the first 200 characters
    of the body. *)
Definition reportsHttpFailure {J} (api : string) (r : Response J)
    (outcome : SearchResponse) : Prop :=
  let body := default "" (response_text r) in
  exists excerpt,
    outcome
    = inl (api +:+ " API returned "
           +:+ JS.numberToString (Z.of_N (response_status r))
           +:+ ": " +:+ excerpt)
    /\ (String.length excerpt <= 200)%nat
    /\ JS.startsWith body excerpt = true
    /\ ((String.length body <= 200)%nat -> excerpt = body).

(** [c] does not occur in [s]. *)
Definition lacks (c : ascii) (s : string) : Prop :=
  JS.all (fun d => negb (Ascii.eqb d c)) s = true.

(** *** Sample networks *)

(** An environment that configures Brave only. *)
Definition braveOnlyEnv : gmap string string :=
  <["BRAVE_SEARCH_API_KEY" := "test-brave-key"]> ∅.

(** A body of the Brave API with one public and one private result. *)
Definition sampleBraveData : BraveData :=
  mkBraveData
    (Some (mkBraveWeb
       (Some [ mkBraveItem (Some "Good") (Some "https://example.com/1")
                           (Some "Public");
               mkBraveItem (Some "Bad") (Some "http://127.0.0.1/secret")
                           None ]))).

Definition sampleGoogleData : GoogleData :=
  mkGoogleData
    (Some [ mkGoogleItem (Some "Google Result") (Some "https://example.com/1")
                         (Some "A result from Google");
            mkGoogleItem None (Some "http://10.0.0.1/admin") None ]).

(** An endpoint that answers every request with the body [data]. *)
Definition answers {R J} (data : J) : World -> R -> Fetched J :=
  fun _ _ => inr (mkResponse true 200%N None (inr data)).

(** An endpoint that refuses every request with [status] and the text
    [body]. *)
Definition refuses {R J} (status : N) (body : string) : World -> R -> Fetched J :=
  fun _ _ =>
    inr (mkResponse false status (Some body) (inl "Unexpected token")).

(** An endpoint that cannot be reached. *)
Definition unreachable {R J} : World -> R -> Fetched J :=
  fun _ _ => inl "fetch failed".

(** A model answer that wraps its array in a code fence, and a parser
    that reads the array of two empty objects. *)
Definition fencedAnswer : string :=
  "```json" +:+ JS.newline +:+ "[{}, {}]" +:+ JS.newline +:+ "```".

Definition sampleParse (text : string) : option (list (option XaiItem)) :=
  if String.eqb text "[{}, {}]"
  then Some [ Some (mkXaiItem None None None);
              Some (mkXaiItem None None None) ]
  else None.

Definition sampleXaiData : XaiData :=
  mkXaiData (Some [ mkXaiChoice (Some (mkXaiMessage (Some fencedAnswer))) ])
            None.

Ltac closed_Q := vm_compute; solve [reflexivity | discriminate].

(* ------------------------------------------------------------------ *)
(** ** Lemmas on the string primitives                                 *)
(* ------------------------------------------------------------------ *)

Lemma digitValue_nonneg c : 0 <= JS.digitValue c.
Proof.
  destruct c as [[] [] [] [] [] [] [] []]; vm_compute; discriminate.
Qed.

Lemma digitsValue_nonneg radix s : forall acc,
  0 <= radix -> 0 <= acc -> 0 <= JS.digitsValue radix acc s.
Proof.
  induction s as [|c s IH]; intros acc Hr Ha; simpl; [exact Ha|].
  apply IH; [exact Hr|]. pose proof (digitValue_nonneg c). nia.
Qed.

Lemma not_in_PRIVATE_HOSTS h :
  h <> "localhost" -> h <> "127.0.0.1" -> h <> "::1" -> h <> "0.0.0.0" ->
  h <> "metadata.google.internal" -> h <> "169.254.169.254" ->
  PRIVATE_HOSTS_has h = false.
Proof.
  intros. unfold PRIVATE_HOSTS_has. apply bool_decide_eq_false.
  unfold PRIVATE_HOSTS. rewrite !elem_of_union, !elem_of_singleton. tauto.
Qed.

Lemma in_PRIVATE_HOSTS h : h ∈ PRIVATE_HOSTS -> PRIVATE_HOSTS_has h = true.
Proof. intros H. unfold PRIVATE_HOSTS_has. apply bool_decide_eq_true. exact H. Qed.

Lemma hasPrivatePrefix_intro s prefix :
  prefix ∈ PRIVATE_CIDR_PREFIXES -> JS.startsWith s prefix = true ->
  hasPrivatePrefix s = true.
Proof.
  intros Hin Hs. unfold hasPrivatePrefix. apply existsb_exists.
  exists prefix. split; [apply list_elem_of_In; exact Hin | exact Hs].
Qed.

Lemma span_all f g : JS.all f g = true -> JS.span f g = (g, EmptyString).
Proof.
  induction g as [|c g IH]; simpl; [reflexivity|].
  intros H. apply andb_true_iff in H as [Hc Hg].
  rewrite Hc, (IH Hg). reflexivity.
Qed.

Lemma span_stop f g c r :
  JS.all f g = true -> f c = false ->
  JS.span f (g +:+ String c r) = (g, String c r).
Proof.
  intros Hg Hc. induction g as [|d g IH]; simpl.
  - rewrite Hc. reflexivity.
  - simpl in Hg. apply andb_true_iff in Hg as [Hd Hg].
    rewrite Hd, (IH Hg). reflexivity.
Qed.

Lemma dropLast_snoc s c : JS.dropLast (s +:+ String c EmptyString) = s.
Proof.
  induction s as [|d s IH]; simpl; [reflexivity|].
  rewrite IH. destruct s; reflexivity.
Qed.

Lemma stripBrackets_bracketed body :
  stripBrackets ("[" +:+ body +:+ "]") = body.
Proof. unfold stripBrackets. cbn. apply dropLast_snoc. Qed.

Lemma isDigit_isHexDigit c : JS.isDigit c = true -> JS.isHexDigit c = true.
Proof. unfold JS.isHexDigit, JS.isDigit. intros ->. reflexivity. Qed.

Lemma all_isDigit_isHexDigit g :
  JS.all JS.isDigit g = true -> JS.all JS.isHexDigit g = true.
Proof.
  induction g as [|c g IH]; simpl; [reflexivity|].
  intros H. apply andb_true_iff in H as [Hc Hg].
  rewrite (isDigit_isHexDigit c Hc), (IH Hg). reflexivity.
Qed.

Lemma digitValue_le_15 c : JS.digitValue c <= 15.
Proof.
  destruct c as [[] [] [] [] [] [] [] []]; vm_compute; discriminate.
Qed.

Lemma digitsValue_16_bound s : forall acc,
  0 <= acc ->
  JS.digitsValue 16 acc s < (acc + 1) * 16 ^ Z.of_nat (String.length s).
Proof.
  induction s as [|c s IH]; intros acc Ha.
  - simpl. lia.
  - cbn [JS.digitsValue String.length].
    pose proof (digitValue_le_15 c). pose proof (digitValue_nonneg c).
    specialize (IH (acc * 16 + JS.digitValue c) ltac:(lia)).
    rewrite Nat2Z.inj_succ, Z.pow_succ_r by lia.
    assert (0 < 16 ^ Z.of_nat (String.length s)) by (apply Z.pow_pos_nonneg; lia).
    nia.
Qed.

Lemma hexGroup_value_range g :
  (String.length g <= 4)%nat -> 0 <= JS.digitsValue 16 0 g < 65536.
Proof.
  intros Hlen. split; [apply digitsValue_nonneg; lia|].
  pose proof (digitsValue_16_bound g 0 ltac:(lia)) as Hb.
  assert (16 ^ Z.of_nat (String.length g) <= 16 ^ 4)
    by (apply Z.pow_le_mono_r; lia).
  change (16 ^ 4) with 65536 in *. lia.
Qed.

Lemma high_octet_of_group v :
  0 <= v < 65536 -> Z.land (Z.shiftr v 8) 255 = v / 256.
Proof.
  intros Hv. change 255 with (Z.ones 8).
  rewrite Z.land_ones, Z.shiftr_div_pow2 by lia.
  change (2 ^ 8) with 256. apply Z.mod_small.
  split; [apply Z.div_pos; lia | apply Z.div_lt_upper_bound; lia].
Qed.

Lemma low_octet_of_group v : Z.land v 255 = v mod 256.
Proof. change 255 with (Z.ones 8). rewrite Z.land_ones by lia. reflexivity. Qed.

(* ------------------------------------------------------------------ *)
(** ** The numeric-host check: hexadecimal against decimal             *)
(* ------------------------------------------------------------------ *)

Section NumericHosts.

Variable new_URL : string -> option URL.
Variable isIP : string -> Z.

(** A host written as a decimal number whose first two octets are
    100.64 is classified private. *)
Lemma decimal_cgnat_flagged urlStr parsed :
  new_URL urlStr = Some parsed ->
  isDecimalLiteral (JS.toLowerCase (hostname parsed)) = true ->
  (let num := JS.digitsValue 10 0 (JS.toLowerCase (hostname parsed)) in
   num <= 4294967295 /\ octetA num = 100 /\ octetB num = 64) ->
  isPrivateUrl new_URL isIP urlStr = true.
Proof.
  intros Hp Hd (Hle & Ha & Hb).
  unfold isPrivateUrl. rewrite Hp. unfold classifyParsed.
  assert (Hn : isNumericPrivateIp (JS.toLowerCase (hostname parsed)) = true).
  { unfold isNumericPrivateIp. rewrite Hd. cbv zeta.
    rewrite Ha, Hb. unfold inUint32.
    assert (0 <= JS.digitsValue 10 0 (JS.toLowerCase (hostname parsed)))
      by (apply digitsValue_nonneg; lia).
    replace (0 <=? _) with true by (symmetry; apply Z.leb_le; assumption).
    replace (_ <=? 4294967295) with true by (symmetry; apply Z.leb_le; assumption).
    reflexivity. }
  rewrite Hn.
  repeat match goal with
         | |- (if ?b then true else _) = true => destruct b; [reflexivity|]
         end.
  reflexivity.
Qed.


(** C2: [isPrivateUrl] returns a boolean on every input, and the answer
    is [true] whenever the URL constructor rejects the input. *)
Theorem isPrivateUrl_fail_closed urlStr :
  (isPrivateUrl new_URL isIP urlStr = true
   \/ isPrivateUrl new_URL isIP urlStr = false)
  /\ (new_URL urlStr = None -> isPrivateUrl new_URL isIP urlStr = true).
Proof.
  split.
  - destruct (isPrivateUrl new_URL isIP urlStr); [left | right]; reflexivity.
  - intros Hfail. unfold isPrivateUrl. rewrite Hfail. reflexivity.
Qed.

End NumericHosts.


Lemma isPrivateUrl_fail_closed_witness :
  Platform.simpleURL "not-a-url" = None
  /\ isPrivateUrl Platform.simpleURL Platform.isIP "not-a-url" = true.
Proof.
  split; [reflexivity|].
  apply (proj2 (isPrivateUrl_fail_closed Platform.simpleURL Platform.isIP
                  "not-a-url")).
  reflexivity.
Defined.

(* ------------------------------------------------------------------ *)
(** ** IPv4-mapped IPv6 hosts                                          *)
(* ------------------------------------------------------------------ *)

Lemma lenBetween_intro lo hi g :
  (lo <= String.length g <= hi)%nat -> lenBetween lo hi g = true.
Proof.
  intros [H1 H2]. unfold lenBetween.
  apply andb_true_iff. split; apply Nat.leb_le; assumption.
Qed.

Lemma stripBrackets_literal host literal :
  hostIsLiteral host ("::ffff:" +:+ literal) ->
  stripBrackets host = "::ffff:" +:+ literal.
Proof.
  intros [-> | ->]; [apply stripBrackets_bracketed | reflexivity].
Qed.

Lemma matchMappedHex_groups g1 g2 :
  hexGroup g1 -> hexGroup g2 ->
  matchMappedHex ("::ffff:" +:+ g1 +:+ ":" +:+ g2) = Some (g1, g2).
Proof.
  intros [Hl1 Hh1] [Hl2 Hh2]. unfold matchMappedHex. cbn [stripPrefixCI String.append].
  change (Ascii.eqb ":" (JS.lower ":")) with true.
  change (Ascii.eqb "f" (JS.lower "f")) with true. cbv iota.
  rewrite (span_stop JS.isHexDigit g1 ":" g2 Hh1 eq_refl).
  rewrite (lenBetween_intro 1 4 g1 Hl1).
  rewrite (span_all JS.isHexDigit g2 Hh2), (lenBetween_intro 1 4 g2 Hl2).
  reflexivity.
Qed.

Lemma matchMappedHex_dotted a rest :
  decGroup a -> matchMappedHex ("::ffff:" +:+ a +:+ "." +:+ rest) = None.
Proof.
  intros [Hl Hd]. unfold matchMappedHex. cbn [stripPrefixCI String.append].
  change (Ascii.eqb ":" (JS.lower ":")) with true.
  change (Ascii.eqb "f" (JS.lower "f")) with true. cbv iota.
  rewrite (span_stop JS.isHexDigit a "." rest (all_isDigit_isHexDigit a Hd) eq_refl).
  destruct (lenBetween 1 4 a); reflexivity.
Qed.

Lemma matchDottedGroups_last d :
  decGroup d -> matchDottedGroups 0 d = true.
Proof.
  intros [Hl Hd]. unfold matchDottedGroups.
  rewrite (span_all JS.isDigit d Hd), (lenBetween_intro 1 3 d Hl). reflexivity.
Qed.

Lemma matchDottedGroups_more n a rest :
  decGroup a -> matchDottedGroups n rest = true ->
  matchDottedGroups (S n) (a +:+ "." +:+ rest) = true.
Proof.
  intros [Hl Hd] Hrest. cbn [matchDottedGroups String.append].
  rewrite (span_stop JS.isDigit a "." rest Hd eq_refl).
  rewrite (lenBetween_intro 1 3 a Hl). exact Hrest.
Qed.

Lemma matchMappedDotted_quad a b c d :
  decGroup a -> decGroup b -> decGroup c -> decGroup d ->
  matchMappedDotted ("::ffff:" +:+ a +:+ "." +:+ b +:+ "." +:+ c +:+ "." +:+ d)
  = Some (a +:+ "." +:+ b +:+ "." +:+ c +:+ "." +:+ d).
Proof.
  intros Ha Hb Hc Hd. unfold matchMappedDotted. cbn [stripPrefixCI String.append].
  change (Ascii.eqb ":" (JS.lower ":")) with true.
  change (Ascii.eqb "f" (JS.lower "f")) with true. cbv iota.
  pose proof (matchDottedGroups_more 2 a (b +:+ "." +:+ c +:+ "." +:+ d) Ha
     (matchDottedGroups_more 1 b (c +:+ "." +:+ d) Hb
        (matchDottedGroups_more 0 c d Hc (matchDottedGroups_last d Hd)))) as H.
  cbn [String.append] in H. rewrite H. reflexivity.
Qed.

(** [extractMappedIPv4] recovers the embedded address of every mapped
    literal. *)
Lemma extractMappedIPv4_mapped host literal embedded :
  MappedIPv4 literal embedded -> hostIsLiteral host literal ->
  extractMappedIPv4 host = Some embedded.
Proof.
  intros Hm Hhost. unfold extractMappedIPv4.
  destruct Hm as [g1 g2 H1 H2 | a b c d Ha Hb Hc Hd].
  - rewrite (stripBrackets_literal host _ Hhost).
    rewrite (matchMappedHex_groups g1 g2 H1 H2). cbv zeta.
    pose proof (hexGroup_value_range g1 (proj2 (proj1 H1))) as R1.
    pose proof (hexGroup_value_range g2 (proj2 (proj1 H2))) as R2.
    rewrite !high_octet_of_group by assumption.
    rewrite !low_octet_of_group. reflexivity.
  - rewrite (stripBrackets_literal host _ Hhost).
    rewrite (matchMappedHex_dotted a _ Ha).
    rewrite (matchMappedDotted_quad a b c d Ha Hb Hc Hd). reflexivity.
Qed.

Lemma reservedIPv4Text_check ip :
  reservedIPv4Text ip -> PRIVATE_HOSTS_has ip || hasPrivatePrefix ip = true.
Proof.
  intros [Hin | (prefix & Hin & Hs)]; apply orb_true_iff.
  - left. apply in_PRIVATE_HOSTS. exact Hin.
  - right. apply (hasPrivatePrefix_intro ip prefix); assumption.
Qed.

Lemma hasPrivatePrefix_reserved ip :
  hasPrivatePrefix ip = true -> reservedIPv4Text ip.
Proof.
  intros H. unfold hasPrivatePrefix in H. apply existsb_exists in H.
  destruct H as (prefix & Hin & Hs). right. exists prefix.
  split; [apply list_elem_of_In; exact Hin | exact Hs].
Qed.

(** The prefix table, read on the decimal rendering of an address,
    covers every address whose first two octets are reserved. *)
Lemma reservedOctets_text a b c d :
  reservedOctets a b -> reservedIPv4Text (dottedQuad a b c d).
Proof.
  intros H. apply hasPrivatePrefix_reserved.
  destruct H as [-> | [-> | [[-> ->] | [[-> Hb] | [[-> ->] | [-> | [[-> ->] | [-> Hb]]]]]]]];
    try reflexivity.
  - assert (Hcases : b = 16 \/ b = 17 \/ b = 18 \/ b = 19 \/ b = 20 \/ b = 21
                     \/ b = 22 \/ b = 23 \/ b = 24 \/ b = 25 \/ b = 26
                     \/ b = 27 \/ b = 28 \/ b = 29 \/ b = 30 \/ b = 31) by lia.
    repeat destruct Hcases as [-> | Hcases]; try reflexivity.
    subst b. reflexivity.
  - assert (Hcases : b = 18 \/ b = 19) by lia.
    destruct Hcases as [-> | ->]; reflexivity.
Qed.

Section MappedHosts.

Variable new_URL : string -> option URL.
Variable isIP : string -> Z.

Lemma classifyParsed_mapped parsed embedded :
  protocol parsed = "http:" \/ protocol parsed = "https:" ->
  extractMappedIPv4 (JS.toLowerCase (hostname parsed)) = Some embedded ->
  reservedIPv4Text embedded ->
  classifyParsed isIP parsed = true.
Proof.
  intros _ Hx Hres. unfold classifyParsed. rewrite Hx.
  rewrite (reservedIPv4Text_check embedded Hres).
  repeat match goal with
         | |- (if ?b then true else _) = true => destruct b; [reflexivity|]
         end.
  reflexivity.
Qed.

(** A host made of two hexadecimal groups whose value lies in a
    reserved range is classified private. *)
Lemma mapped_hex_reserved_octets urlStr parsed g1 g2 :
  new_URL urlStr = Some parsed ->
  protocol parsed = "http:" \/ protocol parsed = "https:" ->
  hexGroup g1 -> hexGroup g2 ->
  hostIsLiteral (JS.toLowerCase (hostname parsed))
                ("::ffff:" +:+ g1 +:+ ":" +:+ g2) ->
  reservedOctets (JS.digitsValue 16 0 g1 / 256)
                 (JS.digitsValue 16 0 g1 mod 256) ->
  isPrivateUrl new_URL isIP urlStr = true.
Proof.
  intros Hp Hproto H1 H2 Hhost Hres. unfold isPrivateUrl. rewrite Hp.
  eapply classifyParsed_mapped; [exact Hproto | |].
  - apply (extractMappedIPv4_mapped _ _ _ (MappedHexGroups g1 g2 H1 H2) Hhost).
  - apply reservedOctets_text. exact Hres.
Qed.

(** C3: an http(s) URL whose host is an IPv4-mapped IPv6 literal, in
    either notation, is classified private whenever the embedded IPv4
    address is on the deny list or starts with a reserved prefix; the
    two mapped forms of 127.0.0.1 are instances. *)
Theorem mapped_ipv4_classified_private urlStr parsed :
  new_URL urlStr = Some parsed ->
  protocol parsed = "http:" \/ protocol parsed = "https:" ->
  (forall literal embedded,
      MappedIPv4 literal embedded ->
      hostIsLiteral (JS.toLowerCase (hostname parsed)) literal ->
      reservedIPv4Text embedded ->
      isPrivateUrl new_URL isIP urlStr = true)
  /\ (hostname parsed = "[::ffff:7f00:1]"
      \/ hostname parsed = "[::ffff:127.0.0.1]" ->
      isPrivateUrl new_URL isIP urlStr = true).
Proof.
  intros Hp Hproto.
  assert (Hgen : forall literal embedded,
             MappedIPv4 literal embedded ->
             hostIsLiteral (JS.toLowerCase (hostname parsed)) literal ->
             reservedIPv4Text embedded ->
             isPrivateUrl new_URL isIP urlStr = true).
  { intros literal embedded Hm Hhost Hres.
    unfold isPrivateUrl. rewrite Hp.
    apply (classifyParsed_mapped parsed embedded Hproto); [|exact Hres].
    apply (extractMappedIPv4_mapped _ literal); assumption. }
  split; [exact Hgen|].
  assert (Hlo : reservedIPv4Text "127.0.0.1").
  { left. unfold PRIVATE_HOSTS.
    rewrite !elem_of_union, !elem_of_singleton. tauto. }
  intros [Hh | Hh].
  - apply (Hgen "::ffff:7f00:1" "127.0.0.1"); [| left; rewrite Hh; reflexivity | exact Hlo].
    apply (MappedHexGroups "7f00" "1"); (split; [simpl; lia | reflexivity]).
  - apply (Hgen "::ffff:127.0.0.1" "127.0.0.1"); [| left; rewrite Hh; reflexivity | exact Hlo].
    apply (MappedDottedQuad "127" "0" "0" "1"); (split; [simpl; lia | reflexivity]).
Qed.

End MappedHosts.

Lemma mapped_ipv4_classified_private_witness :
  isPrivateUrl Platform.simpleURL Platform.isIP "http://[::ffff:a9fe:a9fe]/latest" = true
  /\ isPrivateUrl Platform.simpleURL Platform.isIP "https://[::ffff:7f00:1]/" = true.
Proof.
  split.
  - apply (proj1 (mapped_ipv4_classified_private Platform.simpleURL Platform.isIP
                    "http://[::ffff:a9fe:a9fe]/latest"
                    (mkURL "http:" "[::ffff:a9fe:a9fe]")
                    eq_refl (or_introl eq_refl))
             "::ffff:a9fe:a9fe" "169.254.169.254").
    + apply (MappedHexGroups "a9fe" "a9fe"); (split; [simpl; lia | reflexivity]).
    + left; reflexivity.
    + right. exists "169.254.". split; [|reflexivity].
      unfold PRIVATE_CIDR_PREFIXES. apply list_elem_of_In. simpl. tauto.
  - apply (proj2 (mapped_ipv4_classified_private Platform.simpleURL Platform.isIP
                    "https://[::ffff:7f00:1]/"
                    (mkURL "https:" "[::ffff:7f00:1]")
                    eq_refl (or_intror eq_refl))).
    left; reflexivity.
Defined.

(* ------------------------------------------------------------------ *)
(** ** The result filter                                               *)
(* ------------------------------------------------------------------ *)

Section FilterProperties.

Variable new_URL : string -> option URL.
Variable isIP : string -> Z.

Abbreviation safe := (safeResult new_URL isIP).

Lemma filterResults_cons r results :
  filterResults new_URL isIP (r :: results)
  = if isPrivateUrl new_URL isIP (url r)
    then filterResults new_URL isIP results
    else r :: filterResults new_URL isIP results.
Proof.
  unfold filterResults. simpl.
  destruct (isPrivateUrl new_URL isIP (url r)); reflexivity.
Qed.

Lemma filterResults_sublist results :
  filterResults new_URL isIP results `sublist_of` results.
Proof.
  induction results as [|r results IH].
  - constructor.
  - rewrite filterResults_cons.
    destruct (isPrivateUrl new_URL isIP (url r)).
    + apply sublist_cons. exact IH.
    + apply sublist_skip. exact IH.
Qed.

Lemma filterResults_elem r results :
  r ∈ filterResults new_URL isIP results <-> r ∈ results /\ safe r.
Proof.
  unfold filterResults, safeResult. rewrite !list_elem_of_In, filter_In.
  rewrite negb_true_iff. reflexivity.
Qed.

Lemma filterResults_greatest l results :
  l `sublist_of` results -> Forall safe l ->
  l `sublist_of` filterResults new_URL isIP results.
Proof.
  intros Hsub. induction Hsub as [| x l1 l2 Hsub IH | x l1 l2 Hsub IH];
    intros Hsafe.
  - constructor.
  - inversion Hsafe as [| ? ? Hx Hrest]; subst.
    rewrite filterResults_cons. unfold safeResult in Hx. rewrite Hx.
    apply sublist_skip. apply IH. exact Hrest.
  - rewrite filterResults_cons.
    destruct (isPrivateUrl new_URL isIP (url x)).
    + apply IH. exact Hsafe.
    + apply sublist_cons. apply IH. exact Hsafe.
Qed.

(** C4: [filterResults] returns a subsequence of its argument, made of
    the very results whose URL is not private, and every subsequence
    of safe results is a subsequence of it: it is exactly the
    subsequence of the safe results, in their original order. *)
Theorem filterResults_exact_subsequence results :
  filterResults new_URL isIP results `sublist_of` results
  /\ (forall r, r ∈ filterResults new_URL isIP results
                <-> r ∈ results /\ isPrivateUrl new_URL isIP (url r) = false)
  /\ (forall l, l `sublist_of` results ->
                Forall (fun r => isPrivateUrl new_URL isIP (url r) = false) l ->
                l `sublist_of` filterResults new_URL isIP results).
Proof.
  split; [apply filterResults_sublist|].
  split; [intros r; apply filterResults_elem|].
  intros l. apply filterResults_greatest.
Qed.

End FilterProperties.

Lemma filterResults_exact_subsequence_witness :
  [ mkResult "Good" "https://example.com/1" "Public";
    mkResult "Fine" "https://www.google.com" "Public" ]
  `sublist_of` filterResults Platform.simpleURL Platform.isIP sampleResults.
Proof.
  apply (proj2 (proj2 (filterResults_exact_subsequence
                         Platform.simpleURL Platform.isIP sampleResults))).
  - unfold sampleResults.
    apply sublist_skip, sublist_cons, sublist_cons, sublist_skip, sublist_nil.
  - repeat constructor.
Defined.

Example filterResults_sample :
  filterResults Platform.simpleURL Platform.isIP sampleResults
  = [ mkResult "Good" "https://example.com/1" "Public";
      mkResult "Fine" "https://www.google.com" "Public" ].
Proof. vm_compute. reflexivity. Qed.

(* ------------------------------------------------------------------ *)
(** ** Credential resolution                                           *)
(* ------------------------------------------------------------------ *)

(** C7, refuted as stated: with a Brave key both in the environment and
    in the configuration, the client is built from the environment's
    key, not from the configuration's. *)
Lemma buildProvider_prefers_env_counterexample :
  let env : gmap string string := {[ "BRAVE_SEARCH_API_KEY" := "env-key" ]} in
  buildProvider env "brave" (braveConfig "config-key")
    = Some (BraveSearchProvider "env-key")
  /\ buildProvider env "brave" (braveConfig "config-key")
    <> Some (BraveSearchProvider "config-key").
Proof. vm_compute. split; [reflexivity | discriminate]. Qed.

Section CredentialPrecedence.

Variable env : gmap string string.
Variable config : WebSearchPluginConfig.

Abbreviation configured := (configuredCredential config).

(** C7, as the code has it: a credential set in the environment is the
    one the client is built from, whatever the configuration holds; the
    configuration's value is used when the environment variable is not
    set. *)
Theorem buildProvider_env_precedence :
  (forall e, env !! "BRAVE_SEARCH_API_KEY" = Some e -> e <> "" ->
     buildProvider env "brave" config = Some (BraveSearchProvider e))
  /\ (forall e, env !! "XAI_API_KEY" = Some e -> e <> "" ->
     buildProvider env "xai" config = Some (XaiSearchProvider e))
  /\ (forall e c, env !! "GOOGLE_SEARCH_API_KEY" = Some e -> e <> "" ->
     env !! "GOOGLE_SEARCH_CX" = Some c -> c <> "" ->
     buildProvider env "google" config = Some (GoogleSearchProvider e c))
  /\ (forall k, env !! "BRAVE_SEARCH_API_KEY" = None ->
     configured cfg_brave key_apiKey = Some k -> k <> "" ->
     buildProvider env "brave" config = Some (BraveSearchProvider k))
  /\ (forall k, env !! "XAI_API_KEY" = None ->
     configured cfg_xai key_apiKey = Some k -> k <> "" ->
     buildProvider env "xai" config = Some (XaiSearchProvider k))
  /\ (forall k c, env !! "GOOGLE_SEARCH_API_KEY" = None ->
     env !! "GOOGLE_SEARCH_CX" = None ->
     configured cfg_google google_apiKey = Some k -> k <> "" ->
     configured cfg_google google_cx = Some c -> c <> "" ->
     buildProvider env "google" config = Some (GoogleSearchProvider k c)).
Proof.
  unfold configuredCredential, buildProvider.
  repeat split; intros;
    repeat match goal with
           | H : _ = Some _ |- _ => rewrite H
           | H : _ = None |- _ => rewrite H
           end;
    cbn;
    repeat match goal with
           | |- context [match ?x with EmptyString => _ | String _ _ => _ end] =>
               destruct x; [congruence|]
           end;
    reflexivity.
Qed.

End CredentialPrecedence.

Lemma buildProvider_env_precedence_witness :
  buildProvider {[ "BRAVE_SEARCH_API_KEY" := "env-key" ]} "brave"
    (braveConfig "config-key")
  = Some (BraveSearchProvider "env-key").
Proof.
  apply (proj1 (buildProvider_env_precedence
                  {[ "BRAVE_SEARCH_API_KEY" := "env-key" ]}
                  (braveConfig "config-key")) "env-key").
  - reflexivity.
  - discriminate.
Defined.

(* ------------------------------------------------------------------ *)
(** ** The token bucket                                                *)
(* ------------------------------------------------------------------ *)

Lemma refillAndConsume_refuse now b :
  (refilledTokens now b < 1)%Q ->
  refillAndConsume now b
  = (false, mkBucket (refilledTokens now b) now (maxTokens b) (refillRate b)).
Proof.
  intros H. unfold refillAndConsume. cbv zeta.
  destruct (Qlt_le_dec (refilledTokens now b) 1) as [_ | Hle]; [reflexivity|].
  exfalso. apply (Qlt_not_le _ _ H Hle).
Qed.

Lemma refillAndConsume_grant now b :
  (1 <= refilledTokens now b)%Q ->
  refillAndConsume now b
  = (true, mkBucket (refilledTokens now b - 1)%Q now (maxTokens b) (refillRate b)).
Proof.
  intros H. unfold refillAndConsume. cbv zeta.
  destruct (Qlt_le_dec (refilledTokens now b) 1) as [Hlt | _]; [|reflexivity].
  exfalso. apply (Qlt_not_le _ _ Hlt H).
Qed.

Lemma refillAndConsume_fields now b :
  lastRefill (snd (refillAndConsume now b)) = now
  /\ maxTokens (snd (refillAndConsume now b)) = maxTokens b
  /\ refillRate (snd (refillAndConsume now b)) = refillRate b.
Proof.
  unfold refillAndConsume. cbv zeta.
  destruct (Qlt_le_dec (refilledTokens now b) 1); simpl; auto.
Qed.

Lemma elapsed_nonneg now last :
  last <= now -> (0 <= inject_Z (now - last) / 1000)%Q.
Proof.
  intros H. unfold Qdiv. apply Qmult_le_0_compat.
  - change 0%Q with (inject_Z 0). rewrite <- Zle_Qle. lia.
  - discriminate.
Qed.

Lemma refilledTokens_range now b :
  (0 <= tokens b /\ tokens b <= maxTokens b)%Q -> (0 <= refillRate b)%Q ->
  lastRefill b <= now ->
  (0 <= refilledTokens now b /\ refilledTokens now b <= maxTokens b)%Q.
Proof.
  intros [H0 Hmax] Hrate Hnow. unfold refilledTokens. cbv zeta. split.
  - apply Q.min_glb.
    + apply (Qle_trans _ (tokens b)); assumption.
    + pose proof (Qmult_le_0_compat _ _ (elapsed_nonneg now _ Hnow) Hrate).
      lra.
  - apply Q.le_min_l.
Qed.

(** One refill-then-consume keeps the tokens in range when time has not
    gone backwards since the last refill. *)
Lemma refillAndConsume_in_range now b :
  (0 <= tokens b /\ tokens b <= maxTokens b)%Q -> (0 <= refillRate b)%Q ->
  lastRefill b <= now ->
  (0 <= tokens (snd (refillAndConsume now b))
   /\ tokens (snd (refillAndConsume now b)) <= maxTokens b)%Q.
Proof.
  intros Hr Hrate Hnow.
  destruct (refilledTokens_range now b Hr Hrate Hnow) as [H0 Hmax].
  unfold refillAndConsume. cbv zeta.
  destruct (Qlt_le_dec (refilledTokens now b) 1) as [Hlt | Hge]; simpl.
  - split; assumption.
  - split; lra.
Qed.

(** A provider seen for the first time gets a full bucket, stamped with
    the current time and kept in the map. *)
Lemma getRateBucket_fresh provider w :
  rateBuckets w !! provider = None ->
  fst (getRateBucket provider w) = mkBucket 10%Q (clock w (ticks w)) 10%Q 10%Q
  /\ rateBuckets (snd (getRateBucket provider w)) !! provider
     = Some (mkBucket 10%Q (clock w (ticks w)) 10%Q 10%Q).
Proof.
  intros H. unfold getRateBucket, lookupBucket, Date_now, setBucket.
  unfold mbind, M_bind, mret, M_ret. rewrite H. cbn.
  split; [reflexivity | apply lookup_insert_eq].
Qed.

(** A provider already seen keeps its bucket. *)
Lemma getRateBucket_known provider w bucket :
  rateBuckets w !! provider = Some bucket ->
  getRateBucket provider w = (bucket, w).
Proof.
  intros H. unfold getRateBucket, lookupBucket.
  unfold mbind, M_bind, mret, M_ret. rewrite H. reflexivity.
Qed.

Lemma consumeToken_known provider w bucket :
  rateBuckets w !! provider = Some bucket ->
  consumeToken provider w
  = (fst (refillAndConsume (clock w (ticks w)) bucket),
     mkWorld (<[provider := snd (refillAndConsume (clock w (ticks w)) bucket)]>
                (rateBuckets w))
             (clock w) (S (ticks w)) (calls w)).
Proof.
  intros H. unfold consumeToken, getRateBucket, lookupBucket, Date_now, setBucket.
  unfold mbind, M_bind, mret, M_ret. rewrite H.
  destruct (refillAndConsume (clock w (ticks w)) bucket); reflexivity.
Qed.

Lemma consumeToken_fresh provider w :
  rateBuckets w !! provider = None ->
  consumeToken provider w
  = let created := mkBucket 10%Q (clock w (ticks w)) 10%Q 10%Q in
    let now := clock w (S (ticks w)) in
    (fst (refillAndConsume now created),
     mkWorld (<[provider := snd (refillAndConsume now created)]>
                (<[provider := created]> (rateBuckets w)))
             (clock w) (S (S (ticks w))) (calls w)).
Proof.
  intros H. unfold consumeToken, getRateBucket, lookupBucket, Date_now, setBucket.
  unfold mbind, M_bind, mret, M_ret. rewrite H. cbn.
  destruct (refillAndConsume _ _); reflexivity.
Qed.

Lemma consumeToken_clock provider w :
  clock (snd (consumeToken provider w)) = clock w
  /\ (ticks w <= ticks (snd (consumeToken provider w)))%nat
  /\ calls (snd (consumeToken provider w)) = calls w.
Proof.
  destruct (rateBuckets w !! provider) as [b|] eqn:E.
  - rewrite (consumeToken_known provider w b E). simpl. auto.
  - rewrite (consumeToken_fresh provider w E). simpl. auto.
Qed.

Lemma consumeToken_bucketsOk provider w :
  monotoneClock (clock w) -> bucketsOk w ->
  bucketsOk (snd (consumeToken provider w)).
Proof.
  intros Hmono Hok.
  assert (Hstep : forall b now k m,
             (0 <= tokens b /\ tokens b <= maxTokens b)%Q ->
             (0 <= refillRate b)%Q -> lastRefill b <= now ->
             (forall n, (k <= n)%nat -> now <= clock w n) ->
             (forall q bq, m !! q = Some bq ->
                (0 <= tokens bq /\ tokens bq <= maxTokens bq)%Q
                /\ (0 <= refillRate bq)%Q
                /\ forall n, (k <= n)%nat -> lastRefill bq <= clock w n) ->
             bucketsOk (mkWorld (<[provider := snd (refillAndConsume now b)]> m)
                                (clock w) k (calls w))).
  { intros b now k m Hr Hrate Hlast Hnow Hm q bq. simpl.
    destruct (decide (provider = q)) as [<- | Hne].
    - rewrite lookup_insert_eq. intros [= <-].
      destruct (refillAndConsume_fields now b) as (Hl & Hmx & Hrt).
      rewrite Hl, Hmx, Hrt.
      split; [apply refillAndConsume_in_range; assumption|].
      split; [assumption | exact Hnow].
    - rewrite lookup_insert_ne by assumption. apply Hm. }
  destruct (rateBuckets w !! provider) as [b|] eqn:E.
  - rewrite (consumeToken_known provider w b E). simpl.
    destruct (Hok provider b E) as (Hr & Hrate & Hlast).
    apply Hstep; try assumption.
    + apply Hlast. lia.
    + intros n Hn. apply Hmono. lia.
    + intros q bq Hq. destruct (Hok q bq Hq) as (? & ? & Hl).
      repeat split; try tauto. intros n Hn. apply Hl. lia.
  - rewrite (consumeToken_fresh provider w E). cbv zeta.
    apply Hstep; simpl.
    + split; [discriminate | apply Qle_refl].
    + discriminate.
    + apply Hmono. lia.
    + intros n Hn. apply Hmono. lia.
    + intros q bq. destruct (decide (provider = q)) as [<- | Hne].
      * rewrite lookup_insert_eq. intros [= <-]. simpl.
        split; [split; [discriminate | apply Qle_refl]|].
        split; [discriminate|]. intros n Hn. apply Hmono. lia.
      * rewrite lookup_insert_ne by assumption. intros Hq.
        destruct (Hok q bq Hq) as (? & ? & Hl).
        repeat split; try tauto. intros n Hn. apply Hl. lia.
Qed.

Lemma consumeEach_cons provider rest w :
  consumeEach (provider :: rest) w
  = (fst (consumeToken provider w)
       :: fst (consumeEach rest (snd (consumeToken provider w))),
     snd (consumeEach rest (snd (consumeToken provider w)))).
Proof.
  cbn [consumeEach]. unfold mbind, M_bind, mret, M_ret.
  destruct (consumeToken provider w) as [r w1]. simpl.
  destruct (consumeEach rest w1); reflexivity.
Qed.

Lemma consumeEach_bucketsOk providers : forall w,
  monotoneClock (clock w) -> bucketsOk w ->
  bucketsOk (snd (consumeEach providers w)).
Proof.
  induction providers as [|p rest IH]; intros w Hmono Hok.
  - exact Hok.
  - rewrite consumeEach_cons. simpl. apply IH.
    + rewrite (proj1 (consumeToken_clock p w)). exact Hmono.
    + apply consumeToken_bucketsOk; assumption.
Qed.

(** C9, refuted as stated: when the clock is set back between two calls,
    the second call leaves a negative number of tokens in the bucket. *)
Lemma tokens_in_range_counterexample :
  ~ tokensInRange
      (snd (consumeEach ["google"; "google"]
              (mkWorld ∅ clockSetBack 0 []))).
Proof.
  intros H.
  destruct (rateBuckets
              (snd (consumeEach ["google"; "google"]
                      (mkWorld ∅ clockSetBack 0 []))) !! "google")
    as [b|] eqn:E; [| vm_compute in E; discriminate].
  destruct (H "google" b E) as [H0 _].
  vm_compute in E. injection E as <-.
  vm_compute in H0. apply H0. reflexivity.
Qed.

(** C9, as the code has it: from the empty bucket map, under a clock
    that never runs backwards, every bucket holds between zero and
    [maxTokens] tokens after any sequence of [consumeToken] calls. *)
Theorem tokens_in_range_monotone_clock c start providers :
  monotoneClock c ->
  tokensInRange (snd (consumeEach providers (mkWorld ∅ c start []))).
Proof.
  intros Hmono provider bucket Hb.
  refine (proj1 (consumeEach_bucketsOk providers (mkWorld ∅ c start [])
                   Hmono _ provider bucket Hb)).
  intros q bq Hq. simpl in Hq. rewrite lookup_empty in Hq. discriminate.
Qed.

Lemma tokens_in_range_monotone_clock_witness :
  tokensInRange
    (snd (consumeEach ["google"; "brave"; "google"]
            (mkWorld ∅ (fun i => 1000 + 50 * Z.of_nat i) 0 []))).
Proof.
  apply (tokens_in_range_monotone_clock (fun i => 1000 + 50 * Z.of_nat i) 0
           ["google"; "brave"; "google"]).
  intros i j Hij. lia.
Defined.

(* ------------------------------------------------------------------ *)
(** ** A burst, a refusal and one refilled token                       *)
(* ------------------------------------------------------------------ *)

Lemma refilledTokens_value now b T d :
  (tokens b == T)%Q -> (maxTokens b == 10)%Q -> (refillRate b == 10)%Q ->
  now - lastRefill b = d ->
  (refilledTokens now b == Qmin 10 (T + inject_Z d / 1000 * 10))%Q.
Proof.
  intros Ht Hmax Hrate Hd. unfold refilledTokens. cbv zeta.
  rewrite Hd, Ht, Hmax, Hrate. reflexivity.
Qed.

(** The effect of one call on a bucket in a known state, [d]
    milliseconds after its last refill. *)
Lemma consumeToken_bucketState provider w T last d :
  bucketState w provider T last ->
  clock w (ticks w) - last = d ->
  let R := Qmin 10 (T + inject_Z d / 1000 * 10)%Q in
  let w' := snd (consumeToken provider w) in
  clock w' = clock w /\ ticks w' = S (ticks w)
  /\ ((R < 1)%Q ->
      fst (consumeToken provider w) = false
      /\ bucketState w' provider R (clock w (ticks w)))
  /\ ((1 <= R)%Q ->
      fst (consumeToken provider w) = true
      /\ bucketState w' provider (R - 1)%Q (clock w (ticks w))).
Proof.
  intros (b & Hb & Ht & Hl & Hmax & Hrate) Hd R w'. subst w'.
  rewrite (consumeToken_known provider w b Hb). simpl.
  assert (HR : (refilledTokens (clock w (ticks w)) b == R)%Q).
  { apply refilledTokens_value; try assumption. rewrite Hl. exact Hd. }
  split; [reflexivity|]. split; [reflexivity|]. split; intros Hcmp.
  - rewrite refillAndConsume_refuse by (rewrite HR; exact Hcmp). simpl.
    split; [reflexivity|].
    eexists. split; [apply lookup_insert_eq|]. simpl. auto.
  - rewrite refillAndConsume_grant by (rewrite HR; exact Hcmp). simpl.
    split; [reflexivity|].
    eexists. split; [apply lookup_insert_eq|]. simpl.
    split; [rewrite HR; reflexivity | auto].
Qed.

Lemma bucketState_Qeq w provider T T' last :
  (T == T')%Q -> bucketState w provider T last -> bucketState w provider T' last.
Proof.
  intros HT (b & Hb & Ht & Hrest). exists b.
  split; [exact Hb|]. split; [rewrite Ht; exact HT | exact Hrest].
Qed.

Lemma consumeTimes_succ n provider w :
  consumeTimes (S n) provider w
  = (fst (consumeToken provider w)
       :: fst (consumeTimes n provider (snd (consumeToken provider w))),
     snd (consumeTimes n provider (snd (consumeToken provider w)))).
Proof.
  cbn [consumeTimes]. unfold mbind, M_bind, mret, M_ret.
  destruct (consumeToken provider w) as [r w1]. simpl.
  destruct (consumeTimes n provider w1); reflexivity.
Qed.

Lemma consumeTimes_app n m provider w :
  consumeTimes (n + m) provider w
  = (fst (consumeTimes n provider w)
       ++ fst (consumeTimes m provider (snd (consumeTimes n provider w))),
     snd (consumeTimes m provider (snd (consumeTimes n provider w)))).
Proof.
  revert w. induction n as [|n IH]; intros w.
  - simpl. destruct (consumeTimes m provider w); reflexivity.
  - change (S n + m)%nat with (S (n + m)).
    rewrite !consumeTimes_succ, IH. reflexivity.
Qed.

(** With no time passing, a bucket holding at least [n] tokens grants
    [n] calls in a row and is left with [n] tokens fewer. *)
Lemma zero_elapsed_burst provider t0 n : forall w T,
  bucketState w provider T t0 ->
  (forall i, (i < n)%nat -> clock w (ticks w + i) = t0) ->
  (inject_Z (Z.of_nat n) <= T /\ T <= 10)%Q ->
  fst (consumeTimes n provider w) = replicate n true
  /\ bucketState (snd (consumeTimes n provider w)) provider
       (T - inject_Z (Z.of_nat n))%Q t0
  /\ clock (snd (consumeTimes n provider w)) = clock w
  /\ ticks (snd (consumeTimes n provider w)) = (ticks w + n)%nat.
Proof.
  induction n as [|n IH]; intros w T Hst Hclock [Hn H10].
  - simpl. split; [reflexivity|]. split; [|split; [reflexivity | lia]].
    apply (bucketState_Qeq w provider T); [|exact Hst].
    change (inject_Z (Z.of_nat 0)) with 0%Q. lra.
  - assert (Hnow : clock w (ticks w) = t0)
      by (rewrite <- (Hclock 0%nat ltac:(lia)); f_equal; lia).
    rewrite Nat2Z.inj_succ, <- Z.add_1_r, inject_Z_plus in Hn |- *.
    change (inject_Z 1) with 1%Q in *.
    assert (Hpos : (0 <= inject_Z (Z.of_nat n))%Q)
      by (change 0%Q with (inject_Z 0); rewrite <- Zle_Qle; lia).
    destruct (consumeToken_bucketState provider w T t0 0 Hst ltac:(lia))
      as (Hc & Htk & _ & Hgrant).
    assert (HR : (Qmin 10 (T + inject_Z 0 / 1000 * 10) == T)%Q).
    { assert (Hz : (inject_Z 0 / 1000 * 10 == 0)%Q) by reflexivity.
      rewrite Hz, Q.min_r; lra. }
    destruct Hgrant as [Hres Hst']; [rewrite HR; lra|].
    rewrite Hnow in Hst'.
    apply (bucketState_Qeq _ _ _ (T - 1)%Q) in Hst'; [|rewrite HR; reflexivity].
    destruct (IH _ (T - 1)%Q Hst') as (Hrs & Hfin & Hc' & Htk').
    + intros i Hi. rewrite Hc, Htk.
      rewrite <- (Hclock (S i) ltac:(lia)). f_equal. lia.
    + split; lra.
    + rewrite consumeTimes_succ. simpl. rewrite Hres, Hrs.
      split; [reflexivity|].
      split; [eapply bucketState_Qeq; [|exact Hfin]; lra|].
      split; [rewrite Hc', Hc; reflexivity | rewrite Htk', Htk; lia].
Qed.

Lemma consumeToken_fresh_as_known provider w :
  rateBuckets w !! provider = None ->
  consumeToken provider w
  = consumeToken provider
      (mkWorld (<[provider := mkBucket 10%Q (clock w (ticks w)) 10%Q 10%Q]>
                  (rateBuckets w))
               (clock w) (S (ticks w)) (calls w)).
Proof.
  intros H. rewrite (consumeToken_fresh provider w H). cbv zeta.
  erewrite consumeToken_known by (simpl; apply lookup_insert_eq).
  simpl. rewrite insert_insert_eq. reflexivity.
Qed.

(** C8: on a provider seen for the first time, ten calls with no time
    passing are all granted, the eleventh is refused and takes nothing
    from the bucket, and 100 ms later exactly one call is granted before
    the next is refused again. *)
Theorem burst_refusal_then_one_refill provider w t0 :
  rateBuckets w !! provider = None ->
  (forall i, (i <= 11)%nat -> clock w (ticks w + i) = t0) ->
  clock w (ticks w + 12) = t0 + 100 ->
  clock w (ticks w + 13) = t0 + 100 ->
  fst (consumeTimes 13 provider w)
  = [true; true; true; true; true; true; true; true; true; true;
     false; true; false]
  /\ bucketState (snd (consumeTimes 10 provider w)) provider 0 t0
  /\ bucketState (snd (consumeTimes 11 provider w)) provider 0 t0
  /\ bucketState (snd (consumeTimes 12 provider w)) provider 0 (t0 + 100)
  /\ bucketState (snd (consumeTimes 13 provider w)) provider 0 (t0 + 100).
Proof.
  intros Hfresh Hzero H12 H13.
  set (w0 := mkWorld (<[provider := mkBucket 10%Q (clock w (ticks w)) 10%Q 10%Q]>
                        (rateBuckets w))
                     (clock w) (S (ticks w)) (calls w)).
  assert (Hsame : forall n, consumeTimes (S n) provider w
                            = consumeTimes (S n) provider w0).
  { intros n. rewrite !consumeTimes_succ.
    rewrite (consumeToken_fresh_as_known provider w Hfresh). reflexivity. }
  assert (Hst0 : bucketState w0 provider 10 t0).
  { eexists. split; [apply lookup_insert_eq|]. simpl.
    repeat split; try reflexivity.
    rewrite <- (Hzero 0%nat ltac:(lia)). f_equal. lia. }
  (* the burst of ten *)
  destruct (zero_elapsed_burst provider t0 10 w0 10 Hst0) as (Hr10 & Hs10 & Hc10 & Ht10).
  { intros i Hi. simpl. rewrite <- (Hzero (S i) ltac:(lia)). f_equal. lia. }
  { split; closed_Q. }
  apply (bucketState_Qeq _ _ _ 0%Q) in Hs10; [|closed_Q].
  set (w10 := snd (consumeTimes 10 provider w0)) in *.
  simpl in Hc10, Ht10.
  (* the eleventh call, refused *)
  assert (Hnow10 : clock w10 (ticks w10) = t0).
  { rewrite Hc10, Ht10. rewrite <- (Hzero 11%nat ltac:(lia)). f_equal. lia. }
  destruct (consumeToken_bucketState provider w10 0 t0 0 Hs10)
    as (Hc11 & Ht11 & Hrefuse11 & _); [rewrite Hnow10; lia|].
  destruct Hrefuse11 as [Hr11 Hs11]; [closed_Q|].
  apply (bucketState_Qeq _ _ _ 0%Q) in Hs11; [|closed_Q].
  set (w11 := snd (consumeToken provider w10)) in *.
  rewrite Hnow10 in Hs11.
  (* the twelfth call, 100 ms later, granted *)
  assert (Hnow11 : clock w11 (ticks w11) = t0 + 100).
  { rewrite Hc11, Ht11, Hc10, Ht10. rewrite <- H12. f_equal. lia. }
  destruct (consumeToken_bucketState provider w11 0 t0 100 Hs11)
    as (Hc12 & Ht12 & _ & Hgrant12); [rewrite Hnow11; lia|].
  destruct Hgrant12 as [Hr12 Hs12]; [closed_Q|].
  apply (bucketState_Qeq _ _ _ 0%Q) in Hs12; [|closed_Q].
  set (w12 := snd (consumeToken provider w11)) in *.
  rewrite Hnow11 in Hs12.
  (* the thirteenth call, refused *)
  assert (Hnow12 : clock w12 (ticks w12) = t0 + 100).
  { rewrite Hc12, Ht12, Hc11, Ht11, Hc10, Ht10. rewrite <- H13. f_equal. lia. }
  destruct (consumeToken_bucketState provider w12 0 (t0 + 100) 0 Hs12)
    as (_ & _ & Hrefuse13 & _); [rewrite Hnow12; lia|].
  destruct Hrefuse13 as [Hr13 Hs13]; [closed_Q|].
  apply (bucketState_Qeq _ _ _ 0%Q) in Hs13; [|closed_Q].
  rewrite Hnow12 in Hs13.
  (* putting the calls together *)
  assert (E11 : consumeTimes 11 provider w0
                = (replicate 10 true ++ [false], w11)).
  { rewrite (consumeTimes_app 10 1), (consumeTimes_succ 0). fold w10.
    rewrite Hr10, Hr11. reflexivity. }
  assert (E12 : consumeTimes 12 provider w0
                = (replicate 10 true ++ [false; true], w12)).
  { rewrite (consumeTimes_app 10 2), (consumeTimes_succ 1), (consumeTimes_succ 0).
    fold w10. fold w11.
    rewrite Hr10, Hr11, Hr12. reflexivity. }
  assert (E13 : consumeTimes 13 provider w0
                = (replicate 10 true ++ [false; true; false],
                   snd (consumeToken provider w12))).
  { rewrite (consumeTimes_app 10 3), (consumeTimes_succ 2),
      (consumeTimes_succ 1), (consumeTimes_succ 0).
    fold w10. fold w11. fold w12. rewrite Hr10, Hr11, Hr12, Hr13. reflexivity. }
  rewrite !Hsame, E11, E12, E13. simpl.
  repeat split; assumption.
Qed.

Lemma burst_refusal_then_one_refill_witness :
  fst (consumeTimes 13 "brave"
         (mkWorld ∅ (fun i => if (i <=? 11)%nat then 7000 else 7100) 0 []))
  = [true; true; true; true; true; true; true; true; true; true;
     false; true; false].
Proof.
  apply (burst_refusal_then_one_refill "brave"
           (mkWorld ∅ (fun i => if (i <=? 11)%nat then 7000 else 7100) 0 [])
           7000).
  - reflexivity.
  - intros i Hi. simpl. apply Nat.leb_le in Hi. rewrite Hi. reflexivity.
  - reflexivity.
  - reflexivity.
Defined.

(* ------------------------------------------------------------------ *)
(** ** The fallback orchestrator                                       *)
(* ------------------------------------------------------------------ *)

Section HandlerProperties.

Variable new_URL : string -> option URL.
Variable isIP : string -> Z.
Variable env : gmap string string.
Variable backend : World -> ProviderInstance -> string -> Q -> SearchResponse.
Variable config : WebSearchPluginConfig.

Abbreviation tryProvider' := (tryProvider new_URL isIP env backend config).
Abbreviation tryProviders' := (tryProviders new_URL isIP env backend config).
Abbreviation handler' := (handler new_URL isIP env backend config).
Abbreviation filterResults' := (filterResults new_URL isIP).
Abbreviation Attempt' := (Attempt new_URL isIP env backend config).

Lemma tryProvider_attempt query count name w :
  Attempt' query count name w (tryProvider' query count name w).
Proof.
  unfold tryProvider.
  destruct (buildProvider env name config) as [inst|] eqn:Hb.
  - unfold mbind, M_bind, mret, M_ret.
    destruct (consumeToken name w) as [granted w1] eqn:Hc.
    destruct granted; simpl.
    + unfold search.
      destruct (backend w1 inst query count) as [msg | raw] eqn:Hr.
      * eapply BackendFailed; eassumption.
      * eapply BackendAnswered; eassumption.
    + eapply RateLimited; eassumption.
  - apply NotConfigured. exact Hb.
Qed.

Lemma tryProviders_cons query count name rest errors w :
  tryProviders' query count (name :: rest) errors w
  = match tryProvider' query count name w with
    | (inr result, w1) => (result, w1)
    | (inl diagnostic, w1) =>
        tryProviders' query count rest (errors ++ [diagnostic]) w1
    end.
Proof.
  cbn [tryProviders]. unfold mbind, M_bind, mret, M_ret.
  destruct (tryProvider' query count name w) as [[d | r] w1]; reflexivity.
Qed.


Lemma tryProviders_skip query count name rest errors w diagnostic w1 :
  tryProvider' query count name w = (inl diagnostic, w1) ->
  tryProviders' query count (name :: rest) errors w
  = tryProviders' query count rest (errors ++ [diagnostic]) w1.
Proof. intros H. rewrite tryProviders_cons, H. reflexivity. Qed.

Lemma tryProviders_return query count name rest errors w result w1 :
  tryProvider' query count name w = (inr result, w1) ->
  tryProviders' query count (name :: rest) errors w = (result, w1).
Proof. intros H. rewrite tryProviders_cons, H. reflexivity. Qed.




(** The handler is the loop run over the candidate order with no
    diagnostic yet, so the statement above is one about the handler. *)
Lemma handler_is_loop args w :
  handler' args w
  = tryProviders' (arg_query args) (clampCount (arg_count args))
      (candidateOrder config (arg_provider args)) [] w.
Proof. reflexivity. Qed.


Lemma falsy_nonempty A : A <> "" -> falsy (Some A) = false.
Proof. destruct A; [congruence | reflexivity]. Qed.

Lemma candidateOrder_forced A :
  A <> "" -> candidateOrder config (Some A) = [A].
Proof.
  intros HA. unfold candidateOrder. rewrite (falsy_nonempty A HA). reflexivity.
Qed.


(** C10: forcing a name that is none of the three known providers
    yields, without touching the rate limiter or any back end, the
    aggregated failure whose only diagnostic line says that this name
    is not configured. *)
Theorem forced_unknown_provider_not_configured args name w :
  arg_provider args = Some name -> name <> "" ->
  name <> "google" -> name <> "brave" -> name <> "xai" ->
  handler' args w
  = (mkToolResult
       (PlainText (failureHeader
                   +:+ ("  - " +:+ name +:+ ": not configured")
                   +:+ failureFooter))
       true,
     w).
Proof.
  intros Hname Hne Hg Hb Hx.
  assert (Hbuild : buildProvider env name config = None).
  { unfold buildProvider.
    rewrite (proj2 (String.eqb_neq name "google") Hg).
    rewrite (proj2 (String.eqb_neq name "brave") Hb).
    rewrite (proj2 (String.eqb_neq name "xai") Hx). reflexivity. }
  unfold handler. cbv zeta. rewrite Hname, (candidateOrder_forced name Hne).
  rewrite tryProviders_cons. unfold tryProvider. rewrite Hbuild.
  reflexivity.
Qed.

End HandlerProperties.



Example candidateOrder_configured :
  candidateOrder (mkConfig (Some ["bing"; "xai"; "brave"]) None) None
  = ["xai"; "brave"]
  /\ candidateOrder (mkConfig (Some ["bing"]) None) None = []
  /\ candidateOrder (mkConfig (Some []) None) None = ["google"; "brave"; "xai"]
  /\ candidateOrder (mkConfig (Some ["xai"]) None) (Some "") = ["xai"].
Proof. repeat split; reflexivity. Qed.

Lemma forced_unknown_provider_not_configured_witness :
  sampleHandler (mkArgs "test" None (Some "bing"))
    (Platform.freshWorld (Platform.frozenClock 0))
  = (failureResult ["bing: not configured"],
     Platform.freshWorld (Platform.frozenClock 0)).
Proof.
  unfold sampleHandler.
  rewrite (forced_unknown_provider_not_configured
             Platform.simpleURL Platform.isIP sampleEnv sampleBackend
             emptyConfig (mkArgs "test" None (Some "bing")) "bing"
             (Platform.freshWorld (Platform.frozenClock 0)) eq_refl);
    [reflexivity | discriminate ..].
Defined.

(* ------------------------------------------------------------------ *)
(** ** The cases of the test suite                                     *)
(* ------------------------------------------------------------------ *)

Example tests_isPrivateUrl_blocked :
  List.map (isPrivateUrl Platform.simpleURL Platform.isIP)
    [ "http://localhost/path"; "http://127.0.0.1/path"; "http://0.0.0.0/";
      "http://10.0.0.1/"; "http://172.16.0.1/"; "http://172.31.255.255/";
      "http://192.168.1.1/"; "http://169.254.169.254/";
      "http://metadata.google.internal/"; "ftp://example.com/file";
      "file:///etc/passwd"; "http://[::1]/"; "not-a-url";
      "http://100.64.0.1/"; "http://198.18.0.1/"; "http://198.19.255.255/" ]
  = List.repeat true 16.
Proof. vm_compute. reflexivity. Qed.

Example tests_isPrivateUrl_allowed :
  List.map (isPrivateUrl Platform.simpleURL Platform.isIP)
    [ "https://www.google.com"; "https://example.com/path?q=test";
      "http://8.8.8.8/" ]
  = [false; false; false].
Proof. vm_compute. reflexivity. Qed.

Example tests_numeric_loopback :
  isNumericPrivateIp "2130706433" = true
  /\ isNumericPrivateIp "0x7f000001" = true
  /\ isNumericPrivateIp "1681915905" = true
  /\ isNumericPrivateIp "0x64400001" = false.
Proof. vm_compute. repeat split; reflexivity. Qed.

Example tests_no_provider_configured :
  fst (handler Platform.simpleURL Platform.isIP ∅ sampleBackend emptyConfig
         (mkArgs "test query" None None)
         (Platform.freshWorld (Platform.frozenClock 0)))
  = failureResult [ "google: not configured"; "brave: not configured";
                    "xai: not configured" ].
Proof. vm_compute. reflexivity. Qed.

Example tests_config_used_without_env :
  buildProvider ∅ "brave" (braveConfig "config-api-key")
  = Some (BraveSearchProvider "config-api-key").
Proof. vm_compute. reflexivity. Qed.

(* ------------------------------------------------------------------ *)
(** ** Decimal numerals and the prefix table                           *)
(* ------------------------------------------------------------------ *)

Lemma string_of_uint_digits d :
  JS.all JS.isDigit (NilEmpty.string_of_uint d) = true.
Proof. induction d; simpl; try rewrite IHd; reflexivity. Qed.

Lemma string_of_uint_value d : forall acc,
  JS.digitsValue 10 acc (NilEmpty.string_of_uint d) = uintValue acc d.
Proof. induction d; intros acc; simpl; try rewrite IHd; reflexivity. Qed.

Lemma of_uint_acc_value d : forall acc,
  Z.pos (Pos.of_uint_acc d acc) = uintValue (Z.pos acc) d.
Proof.
  induction d; intros acc; simpl; try rewrite IHd; try reflexivity;
    f_equal; lia.
Qed.

Lemma of_uint_value d : Z.of_N (Pos.of_uint d) = uintValue 0 d.
Proof.
  induction d; simpl; try exact IHd; try reflexivity;
    rewrite of_uint_acc_value; reflexivity.
Qed.

Lemma to_uint_nonnil n : N.to_uint n <> Decimal.Nil.
Proof.
  destruct n as [|p]; simpl; [discriminate|].
  apply DecimalPos.Unsigned.to_uint_nonnil.
Qed.

Lemma numberToString_NilEmpty n :
  JS.numberToString n = NilEmpty.string_of_uint (N.to_uint (Z.to_N n)).
Proof.
  unfold JS.numberToString, NilZero.string_of_uint.
  pose proof (to_uint_nonnil (Z.to_N n)).
  destruct (N.to_uint (Z.to_N n)); [congruence | reflexivity ..].
Qed.

Lemma numberToString_digits n :
  JS.all JS.isDigit (JS.numberToString n) = true.
Proof. rewrite numberToString_NilEmpty. apply string_of_uint_digits. Qed.

Lemma numberToString_nonempty n : JS.numberToString n <> "".
Proof.
  rewrite numberToString_NilEmpty.
  pose proof (to_uint_nonnil (Z.to_N n)).
  destruct (N.to_uint (Z.to_N n)); [congruence | discriminate ..].
Qed.

(** Reading back the decimal rendering of a number gives the number. *)
Lemma numberToString_value n :
  0 <= n -> JS.digitsValue 10 0 (JS.numberToString n) = n.
Proof.
  intros Hn. rewrite numberToString_NilEmpty, string_of_uint_value.
  rewrite <- of_uint_value.
  change (Pos.of_uint (N.to_uint (Z.to_N n)))
    with (N.of_uint (N.to_uint (Z.to_N n))).
  rewrite DecimalN.Unsigned.of_to. lia.
Qed.

Lemma numberToString_inj a k :
  0 <= a -> 0 <= k -> JS.numberToString a = JS.numberToString k -> a = k.
Proof.
  intros Ha Hk H. rewrite <- (numberToString_value a Ha),
    <- (numberToString_value k Hk), H. reflexivity.
Qed.

Lemma numberToString_eqb a k :
  0 <= a -> 0 <= k ->
  String.eqb (JS.numberToString a) (JS.numberToString k) = (a =? k).
Proof.
  intros Ha Hk. destruct (Z.eqb_spec a k) as [-> | Hne].
  - apply String.eqb_refl.
  - apply String.eqb_neq. intros H. apply Hne.
    apply numberToString_inj; assumption.
Qed.

Lemma digit_not_dot c : JS.isDigit c = true -> Ascii.eqb "." c = false.
Proof. destruct c as [[] [] [] [] [] [] [] []]; vm_compute; congruence. Qed.

(** On two runs of digits that are each followed by a dot, [startsWith]
    compares the runs as wholes and goes on after the dots. *)
Lemma startsWith_digits_dot p : forall g t q,
  JS.all JS.isDigit g = true -> JS.all JS.isDigit p = true ->
  JS.startsWith (g +:+ String "." t) (p +:+ String "." q)
  = String.eqb g p && JS.startsWith t q.
Proof.
  induction p as [|c' p IH]; intros g t q Hg Hp.
  - destruct g as [|c g]; cbn [JS.startsWith String.append String.eqb].
    + rewrite Ascii.eqb_refl. reflexivity.
    + cbn [JS.all] in Hg. apply andb_true_iff in Hg as [Hc _].
      rewrite (digit_not_dot c Hc). reflexivity.
  - cbn [JS.all] in Hp. apply andb_true_iff in Hp as [Hc' Hp].
    destruct g as [|c g]; cbn [JS.startsWith String.append String.eqb].
    + rewrite Ascii.eqb_sym, (digit_not_dot c' Hc'). reflexivity.
    + cbn [JS.all] in Hg. apply andb_true_iff in Hg as [Hc Hg].
      rewrite (Ascii.eqb_sym c c').
      destruct (Ascii.eqb c' c); [apply IH; assumption | reflexivity].
Qed.

Lemma startsWith_nil s : JS.startsWith s "" = true.
Proof. destruct s; reflexivity. Qed.

Lemma startsWith_prefixOf1 g t p :
  JS.all JS.isDigit g = true -> JS.all JS.isDigit p = true ->
  JS.startsWith (g +:+ String "." t) (prefixOf1 p) = String.eqb g p.
Proof.
  intros Hg Hp. unfold prefixOf1.
  change (p +:+ ".") with (p +:+ String "." "").
  rewrite (startsWith_digits_dot p g t "" Hg Hp), startsWith_nil.
  apply andb_true_r.
Qed.

Lemma startsWith_prefixOf2 g1 g2 t p q :
  JS.all JS.isDigit g1 = true -> JS.all JS.isDigit g2 = true ->
  JS.all JS.isDigit p = true -> JS.all JS.isDigit q = true ->
  JS.startsWith (g1 +:+ String "." (g2 +:+ String "." t)) (prefixOf2 p q)
  = String.eqb g1 p && String.eqb g2 q.
Proof.
  intros H1 H2 Hp Hq. unfold prefixOf2.
  rewrite (startsWith_digits_dot p g1 _ _ H1 Hp).
  change (q +:+ ".") with (q +:+ String "." "").
  rewrite (startsWith_digits_dot q g2 t "" H2 Hq), startsWith_nil.
  rewrite andb_true_r. reflexivity.
Qed.

Lemma PRIVATE_CIDR_PREFIXES_shape :
  PRIVATE_CIDR_PREFIXES
  = [ prefixOf1 "10"; prefixOf1 "127"; prefixOf2 "169" "254";
      prefixOf2 "172" "16"; prefixOf2 "172" "17"; prefixOf2 "172" "18";
      prefixOf2 "172" "19"; prefixOf2 "172" "20"; prefixOf2 "172" "21";
      prefixOf2 "172" "22"; prefixOf2 "172" "23"; prefixOf2 "172" "24";
      prefixOf2 "172" "25"; prefixOf2 "172" "26"; prefixOf2 "172" "27";
      prefixOf2 "172" "28"; prefixOf2 "172" "29"; prefixOf2 "172" "30";
      prefixOf2 "172" "31"; prefixOf2 "192" "168"; prefixOf1 "0";
      prefixOf2 "100" "64"; prefixOf2 "198" "18"; prefixOf2 "198" "19" ].
Proof. reflexivity. Qed.

Lemma dottedQuad_shape a b c d :
  dottedQuad a b c d
  = JS.numberToString a
    +:+ String "." (JS.numberToString b
    +:+ String "." (JS.numberToString c +:+ "." +:+ JS.numberToString d)).
Proof. reflexivity. Qed.

Ltac read_octet H :=
  apply String.eqb_eq in H;
  apply (f_equal (JS.digitsValue 10 0)) in H;
  rewrite numberToString_value in H by assumption;
  vm_compute in H.

(** A prefix of the table matches a dotted quad only if its first two
    octets are reserved. *)
Lemma hasPrivatePrefix_octets a b c d :
  0 <= a -> 0 <= b ->
  hasPrivatePrefix (dottedQuad a b c d) = true -> reservedOctets a b.
Proof.
  intros Ha Hb H. unfold hasPrivatePrefix in H.
  rewrite PRIVATE_CIDR_PREFIXES_shape, dottedQuad_shape in H.
  cbn [existsb] in H.
  rewrite !startsWith_prefixOf1, !startsWith_prefixOf2 in H
    by (try apply numberToString_digits; reflexivity).
  unfold reservedOctets.
  repeat match type of H with
         | (_ || _) = true => apply orb_true_iff in H as [H | H]
         end;
    try discriminate H;
    try (apply andb_true_iff in H as [H1 H2]; read_octet H1; read_octet H2);
    try read_octet H; lia.
Qed.

Lemma reservedOctets_prefix a b c d :
  reservedOctets a b -> hasPrivatePrefix (dottedQuad a b c d) = true.
Proof.
  intros H.
  destruct H as [-> | [-> | [[-> ->] | [[-> Hb] | [[-> ->] | [-> | [[-> ->] | [-> Hb]]]]]]]];
    try reflexivity.
  - assert (Hcases : b = 16 \/ b = 17 \/ b = 18 \/ b = 19 \/ b = 20 \/ b = 21
                     \/ b = 22 \/ b = 23 \/ b = 24 \/ b = 25 \/ b = 26
                     \/ b = 27 \/ b = 28 \/ b = 29 \/ b = 30 \/ b = 31) by lia.
    repeat destruct Hcases as [-> | Hcases]; try reflexivity.
    subst b. reflexivity.
  - assert (Hcases : b = 18 \/ b = 19) by lia.
    destruct Hcases as [-> | ->]; reflexivity.
Qed.

Lemma decimalRanges_orb a b :
  decimalRanges a b
  = (a =? 127) || (a =? 10) || ((a =? 172) && (16 <=? b) && (b <=? 31))
    || ((a =? 192) && (b =? 168)) || ((a =? 169) && (b =? 254)) || (a =? 0)
    || ((a =? 100) && (b =? 64)) || ((a =? 198) && ((b =? 18) || (b =? 19))).
Proof.
  unfold decimalRanges.
  repeat match goal with
         | |- (if ?c then true else _) = _ => destruct c; [reflexivity|]
         end.
  reflexivity.
Qed.

Lemma hexRanges_orb a b :
  hexRanges a b
  = (a =? 127) || (a =? 10) || ((a =? 172) && (16 <=? b) && (b <=? 31))
    || ((a =? 192) && (b =? 168)) || ((a =? 169) && (b =? 254)) || (a =? 0).
Proof.
  unfold hexRanges.
  repeat match goal with
         | |- (if ?c then true else _) = _ => destruct c; [reflexivity|]
         end.
  reflexivity.
Qed.



(* ------------------------------------------------------------------ *)
(** ** Hosts that begin with a digit                                   *)
(* ------------------------------------------------------------------ *)

Lemma all_digits_dot g rest :
  JS.all JS.isDigit (g +:+ String "." rest) = false.
Proof.
  induction g as [|c g IH]; cbn [String.append JS.all].
  - reflexivity.
  - rewrite IH. apply andb_false_r.
Qed.

Lemma extractMappedIPv4_digit c r :
  JS.isDigit c = true -> extractMappedIPv4 (String c r) = None.
Proof.
  destruct c as [[] [] [] [] [] [] [] []]; intros H; vm_compute in H;
    try discriminate H; reflexivity.
Qed.


Lemma stripBrackets_digit c r :
  JS.isDigit c = true -> stripBrackets (String c r) = String c r.
Proof.
  destruct c as [[] [] [] [] [] [] [] []]; intros H; vm_compute in H;
    try discriminate H; reflexivity.
Qed.

Lemma digit_not_x c : JS.isDigit c = true -> Ascii.eqb (JS.lower c) "x" = false.
Proof. destruct c as [[] [] [] [] [] [] [] []]; vm_compute; congruence. Qed.

Lemma isHexLiteral_second c1 c2 r :
  Ascii.eqb (JS.lower c2) "x" = false ->
  isHexLiteral (String c1 (String c2 r)) = false.
Proof.
  intros H. unfold isHexLiteral.
  destruct c1 as [[] [] [] [] [] [] [] []]; try reflexivity.
  destruct r; [reflexivity|]. rewrite H. reflexivity.
Qed.


(** A run of digits followed by a dot is neither a decimal nor a
    hexadecimal literal. *)
Lemma isNumericPrivateIp_dotted g rest :
  JS.all JS.isDigit g = true ->
  isNumericPrivateIp (g +:+ String "." rest) = false.
Proof.
  intros Hg. unfold isNumericPrivateIp.
  assert (Hdec : isDecimalLiteral (g +:+ String "." rest) = false).
  { unfold isDecimalLiteral. rewrite all_digits_dot.
    destruct (g +:+ String "." rest); reflexivity. }
  assert (Hhex : isHexLiteral (g +:+ String "." rest) = false).
  { destruct g as [|c1 [|c2 g]]; cbn [String.append].
    - destruct rest as [|c2 [|c3 r]]; reflexivity.
    - apply isHexLiteral_second. reflexivity.
    - apply isHexLiteral_second. apply digit_not_x.
      cbn [JS.all] in Hg. apply andb_true_iff in Hg as [_ Hg].
      apply andb_true_iff in Hg as [Hc2 _]. exact Hc2. }
  rewrite Hdec, Hhex. reflexivity.
Qed.

Lemma in_PRIVATE_HOSTS_cases h :
  PRIVATE_HOSTS_has h = true ->
  h = "localhost" \/ h = "127.0.0.1" \/ h = "::1" \/ h = "0.0.0.0"
  \/ h = "metadata.google.internal" \/ h = "169.254.169.254".
Proof.
  unfold PRIVATE_HOSTS_has. intros H. apply bool_decide_eq_true in H.
  unfold PRIVATE_HOSTS in H.
  rewrite !elem_of_union, !elem_of_singleton in H. tauto.
Qed.

Lemma dottedQuad_head a b c d :
  exists ch r, dottedQuad a b c d = String ch r /\ JS.isDigit ch = true.
Proof.
  rewrite dottedQuad_shape.
  pose proof (numberToString_digits a) as Hd.
  pose proof (numberToString_nonempty a) as Hn.
  destruct (JS.numberToString a) as [|ch g]; [congruence|].
  cbn [JS.all] in Hd. apply andb_true_iff in Hd as [Hch _].
  exists ch. eexists. split; [reflexivity | exact Hch].
Qed.

(** The deny list holds no dotted quad outside the reserved ranges. *)
Lemma PRIVATE_HOSTS_dottedQuad a b c d :
  PRIVATE_HOSTS_has (dottedQuad a b c d) = true ->
  hasPrivatePrefix (dottedQuad a b c d) = true.
Proof.
  intros H. apply in_PRIVATE_HOSTS_cases in H.
  destruct (dottedQuad_head a b c d) as (ch & r & Hs & Hch).
  destruct H as [H | [H | [H | [H | [H | H]]]]];
    try (rewrite H; reflexivity);
    rewrite H in Hs; injection Hs as <- _; discriminate Hch.
Qed.





(* ------------------------------------------------------------------ *)
(** ** IPv4 hosts in dotted and in decimal spelling                    *)
(* ------------------------------------------------------------------ *)





Section NumericSpellings.

Variable new_URL : string -> option URL.
Variable isIP : string -> Z.

(** X1: for an http(s) URL whose host is the dotted quad [a.b.c.d] and
    is recognised as an IPv4 address, [isPrivateUrl] answers [true]
    exactly when the first two octets lie in a reserved range; of the
    carrier-grade NAT block only 100.64.*.* is among them. *)
Theorem ipv4_literal_private_iff_reserved urlStr parsed a b c d :
  new_URL urlStr = Some parsed ->
  protocol parsed = "http:" \/ protocol parsed = "https:" ->
  isOctet a -> isOctet b -> isOctet c -> isOctet d ->
  JS.toLowerCase (hostname parsed) = dottedQuad a b c d ->
  isIP (dottedQuad a b c d) = 4 ->
  (isPrivateUrl new_URL isIP urlStr = true <-> reservedOctets a b).
Proof.
  intros Hp Hproto Ha Hb _ _ Hh Hip.
  assert (Hscheme : negb (String.eqb (protocol parsed) "http:")
                    && negb (String.eqb (protocol parsed) "https:") = false)
    by (destruct Hproto as [-> | ->]; reflexivity).
  unfold isPrivateUrl. rewrite Hp. unfold classifyParsed.
  rewrite Hscheme, Hh.
  destruct (dottedQuad_head a b c d) as (ch & r & Hs & Hch).
  assert (Hbare : stripBrackets (dottedQuad a b c d) = dottedQuad a b c d)
    by (rewrite Hs; apply stripBrackets_digit; exact Hch).
  assert (Hmap : extractMappedIPv4 (dottedQuad a b c d) = None)
    by (rewrite Hs; apply extractMappedIPv4_digit; exact Hch).
  assert (Hnum : isNumericPrivateIp (dottedQuad a b c d) = false)
    by (rewrite dottedQuad_shape; apply isNumericPrivateIp_dotted;
        apply numberToString_digits).
  rewrite Hbare, Hmap, Hnum, Hip. cbn [Z.eqb Pos.eqb].
  destruct (PRIVATE_HOSTS_has (dottedQuad a b c d)) eqn:Hdeny; cbn [orb].
  - split; [intros _ | reflexivity].
    apply (hasPrivatePrefix_octets a b c d); [apply Ha | apply Hb |].
    apply PRIVATE_HOSTS_dottedQuad. exact Hdeny.
  - destruct (hasPrivatePrefix (dottedQuad a b c d)) eqn:Hpre.
    + split; [intros _ | reflexivity].
      apply (hasPrivatePrefix_octets a b c d); [apply Ha | apply Hb | exact Hpre].
    + split; [discriminate|]. intros Hres.
      rewrite (reservedOctets_prefix a b c d Hres) in Hpre. discriminate.
Qed.








(** The two branches of the numeric check differ exactly on 100.64 and
    198.18-19. *)
Lemma decimalRanges_hexRanges a b :
  decimalRanges a b
  = hexRanges a b || ((a =? 100) && (b =? 64))
    || ((a =? 198) && ((b =? 18) || (b =? 19))).
Proof. rewrite decimalRanges_orb, hexRanges_orb. reflexivity. Qed.

Lemma letter_host_parts ch r :
  isLowerLetter ch = true ->
  stripBrackets (String ch r) = String ch r
  /\ extractMappedIPv4 (String ch r) = None
  /\ isNumericPrivateIp (String ch r) = false
  /\ String ch r <> "127.0.0.1" /\ String ch r <> "::1"
  /\ String ch r <> "0.0.0.0" /\ String ch r <> "169.254.169.254".
Proof.
  destruct ch as [[] [] [] [] [] [] [] []]; intros H; vm_compute in H;
    try discriminate H;
    (split; [reflexivity|]); (split; [reflexivity|]);
    (split; [|repeat split; discriminate]);
    unfold isNumericPrivateIp; cbn [isDecimalLiteral JS.all];
    match goal with
    | |- context [isHexLiteral (String ?c ?s)] =>
        replace (isHexLiteral (String c s)) with false
          by (destruct s as [|? [|? ?]]; reflexivity)
    end; reflexivity.
Qed.

(** X5: an http(s) URL whose host begins with a letter, is neither
    [localhost] nor [metadata.google.internal] and is not an IP address
    for [isIP], is classified public: host names are not resolved. *)
Theorem lettered_host_classified_public urlStr parsed ch r :
  new_URL urlStr = Some parsed ->
  protocol parsed = "http:" \/ protocol parsed = "https:" ->
  JS.toLowerCase (hostname parsed) = String ch r ->
  isLowerLetter ch = true ->
  String ch r <> "localhost" ->
  String ch r <> "metadata.google.internal" ->
  isIP (String ch r) = 0 ->
  isPrivateUrl new_URL isIP urlStr = false.
Proof.
  intros Hp Hproto Hh Hch Hlocal Hmeta Hip.
  assert (Hscheme : negb (String.eqb (protocol parsed) "http:")
                    && negb (String.eqb (protocol parsed) "https:") = false)
    by (destruct Hproto as [-> | ->]; reflexivity).
  destruct (letter_host_parts ch r Hch)
    as (Hbare & Hmap & Hnum & H1 & H2 & H3 & H4).
  unfold isPrivateUrl. rewrite Hp. unfold classifyParsed.
  rewrite Hscheme, Hh, Hbare, Hmap, Hnum, Hip.
  rewrite not_in_PRIVATE_HOSTS by assumption. reflexivity.
Qed.

End NumericSpellings.

Lemma ipv4_literal_private_iff_reserved_witness :
  isPrivateUrl Platform.simpleURL Platform.isIP "http://172.20.1.2/" = true
  /\ isPrivateUrl Platform.simpleURL Platform.isIP "http://100.65.0.1/" = false.
Proof.
  split.
  - apply (proj2 (ipv4_literal_private_iff_reserved
                    Platform.simpleURL Platform.isIP "http://172.20.1.2/"
                    (mkURL "http:" "172.20.1.2") 172 20 1 2
                    eq_refl (or_introl eq_refl)
                    ltac:(unfold isOctet; lia) ltac:(unfold isOctet; lia)
                    ltac:(unfold isOctet; lia) ltac:(unfold isOctet; lia)
                    eq_refl eq_refl)).
    unfold reservedOctets. lia.
  - destruct (isPrivateUrl Platform.simpleURL Platform.isIP "http://100.65.0.1/")
      eqn:E; [|reflexivity].
    apply (proj1 (ipv4_literal_private_iff_reserved
                    Platform.simpleURL Platform.isIP "http://100.65.0.1/"
                    (mkURL "http:" "100.65.0.1") 100 65 0 1
                    eq_refl (or_introl eq_refl)
                    ltac:(unfold isOctet; lia) ltac:(unfold isOctet; lia)
                    ltac:(unfold isOctet; lia) ltac:(unfold isOctet; lia)
                    eq_refl eq_refl)) in E.
    unfold reservedOctets in E. lia.
Defined.




Lemma lettered_host_classified_public_witness :
  isPrivateUrl Platform.simpleURL Platform.isIP "https://example.com/path?q=test"
  = false.
Proof.
  apply (lettered_host_classified_public
           Platform.simpleURL Platform.isIP "https://example.com/path?q=test"
           (mkURL "https:" "example.com") "e" "xample.com"
           eq_refl (or_intror eq_refl) eq_refl eq_refl);
    [discriminate | discriminate | reflexivity].
Defined.

(* ------------------------------------------------------------------ *)
(** ** More on the result filter                                       *)
(* ------------------------------------------------------------------ *)

Section FilterComposition.

Variable new_URL : string -> option URL.
Variable isIP : string -> Z.

Abbreviation keep := (filterResults new_URL isIP).

Lemma filterResults_safe results :
  Forall (safeResult new_URL isIP) (keep results).
Proof.
  apply Forall_forall. intros r Hr.
  apply (filterResults_elem new_URL isIP) in Hr. apply Hr.
Qed.

Lemma filterResults_all_safe results :
  Forall (safeResult new_URL isIP) results -> keep results = results.
Proof.
  induction 1 as [|r results Hr _ IH]; [reflexivity|].
  rewrite filterResults_cons. unfold safeResult in Hr. rewrite Hr, IH.
  reflexivity.
Qed.

(** X6: filtering is idempotent, leaves a list unchanged exactly when
    all its results are safe, distributes over concatenation and never
    lengthens a list. *)
Theorem filterResults_composition results others :
  keep (keep results) = keep results
  /\ (keep results = results <-> Forall (safeResult new_URL isIP) results)
  /\ keep (results ++ others) = keep results ++ keep others
  /\ (List.length (keep results) <= List.length results)%nat.
Proof.
  split; [apply filterResults_all_safe, filterResults_safe|].
  split; [split|].
  - intros H. rewrite <- H. apply filterResults_safe.
  - apply filterResults_all_safe.
  - split; [apply List.filter_app | apply List.filter_length_le].
Qed.

End FilterComposition.

(* ------------------------------------------------------------------ *)
(** ** More on the token buckets                                       *)
(* ------------------------------------------------------------------ *)

Lemma consumeToken_buckets provider w :
  is_Some (rateBuckets (snd (consumeToken provider w)) !! provider)
  /\ forall other,
       other <> provider ->
       rateBuckets (snd (consumeToken provider w)) !! other
       = rateBuckets w !! other.
Proof.
  destruct (rateBuckets w !! provider) as [b|] eqn:E.
  - rewrite (consumeToken_known provider w b E). simpl. split.
    + rewrite lookup_insert_eq. eexists. reflexivity.
    + intros other Hne. rewrite lookup_insert_ne by congruence. reflexivity.
  - rewrite (consumeToken_fresh provider w E). simpl. split.
    + rewrite lookup_insert_eq. eexists. reflexivity.
    + intros other Hne. rewrite !lookup_insert_ne by congruence. reflexivity.
Qed.

Lemma refillAndConsume_capped now b :
  maxTokens b = 10%Q ->
  (tokens (snd (refillAndConsume now b)) <= 10)%Q.
Proof.
  intros Hmax. unfold refillAndConsume. cbv zeta.
  assert (Hle : (refilledTokens now b <= 10)%Q).
  { unfold refilledTokens. cbv zeta. rewrite Hmax. apply Q.le_min_l. }
  destruct (Qlt_le_dec (refilledTokens now b) 1); simpl; lra.
Qed.

Lemma consumeToken_bucketsCapped provider w :
  bucketsCapped w -> bucketsCapped (snd (consumeToken provider w)).
Proof.
  intros Hok.
  assert (Hstep : forall b now k m,
             maxTokens b = 10%Q -> refillRate b = 10%Q ->
             (forall q bq, m !! q = Some bq ->
                (tokens bq <= 10)%Q /\ maxTokens bq = 10%Q
                /\ refillRate bq = 10%Q) ->
             bucketsCapped
               (mkWorld (<[provider := snd (refillAndConsume now b)]> m)
                        (clock w) k (calls w))).
  { intros b now k m Hmax Hrate Hm q bq. simpl.
    destruct (decide (provider = q)) as [<- | Hne].
    - rewrite lookup_insert_eq. intros [= <-].
      destruct (refillAndConsume_fields now b) as (_ & Hmx & Hrt).
      rewrite Hmx, Hrt.
      split; [apply refillAndConsume_capped; exact Hmax | auto].
    - rewrite lookup_insert_ne by assumption. apply Hm. }
  destruct (rateBuckets w !! provider) as [b|] eqn:E.
  - rewrite (consumeToken_known provider w b E). simpl.
    destruct (Hok provider b E) as (_ & Hmax & Hrate).
    apply Hstep; assumption.
  - rewrite (consumeToken_fresh provider w E). cbv zeta.
    apply Hstep; try reflexivity.
    intros q bq. destruct (decide (provider = q)) as [<- | Hne].
    + rewrite lookup_insert_eq. intros [= <-]. simpl.
      split; [apply Qle_refl | auto].
    + rewrite lookup_insert_ne by assumption. apply Hok.
Qed.

Lemma consumeEach_bucketsCapped providers : forall w,
  bucketsCapped w -> bucketsCapped (snd (consumeEach providers w)).
Proof.
  induction providers as [|p rest IH]; intros w Hok; [exact Hok|].
  rewrite consumeEach_cons. simpl. apply IH.
  apply consumeToken_bucketsCapped. exact Hok.
Qed.

Lemma consumeEach_buckets providers : forall w provider,
  is_Some (rateBuckets (snd (consumeEach providers w)) !! provider)
  <-> provider ∈ providers \/ is_Some (rateBuckets w !! provider).
Proof.
  induction providers as [|p rest IH]; intros w provider.
  - simpl. rewrite elem_of_nil. tauto.
  - rewrite consumeEach_cons. simpl. rewrite IH, elem_of_cons.
    destruct (consumeToken_buckets p w) as [Hown Hothers].
    destruct (decide (provider = p)) as [-> | Hne].
    + tauto.
    + rewrite (Hothers provider Hne). tauto.
Qed.

(** X7: whatever the clock does, after any sequence of [consumeToken]
    calls from the empty map there is a bucket exactly for the providers
    that were asked for, each with capacity 10, refill rate 10 and at
    most 10 tokens; a call for one provider leaves the buckets of the
    others as they were. *)
Theorem buckets_per_provider_capped c start providers :
  (forall provider,
      is_Some (rateBuckets
                 (snd (consumeEach providers (mkWorld ∅ c start [])))
               !! provider)
      <-> provider ∈ providers)
  /\ bucketsCapped (snd (consumeEach providers (mkWorld ∅ c start [])))
  /\ forall w provider other,
       other <> provider ->
       rateBuckets (snd (consumeToken provider w)) !! other
       = rateBuckets w !! other.
Proof.
  split; [|split].
  - intros provider. rewrite consumeEach_buckets. simpl.
    rewrite lookup_empty. split; [intros [H | [x Hx]] | tauto];
      [exact H | discriminate].
  - apply consumeEach_bucketsCapped. intros q bq Hq. simpl in Hq.
    rewrite lookup_empty in Hq. discriminate.
  - intros w provider. apply consumeToken_buckets.
Qed.

Lemma inject_Z_sub x y : (inject_Z (x - y) == inject_Z x - inject_Z y)%Q.
Proof.
  unfold Z.sub. rewrite inject_Z_plus, inject_Z_opp. reflexivity.
Qed.

Lemma refill_amount d :
  (inject_Z d / 1000 * 10 == inject_Z d / 100)%Q.
Proof. unfold Qdiv. change (/ 1000)%Q with (1 # 1000)%Q.
  change (/ 100)%Q with (1 # 100)%Q. ring_simplify.
  unfold Qeq. simpl. lia.
Qed.

(** X8: a bucket that was last refilled a second or more ago is full
    again: the call is granted and leaves nine tokens. *)
Theorem idle_second_refills_bucket provider w b :
  rateBuckets w !! provider = Some b ->
  (0 <= tokens b)%Q -> maxTokens b = 10%Q -> refillRate b = 10%Q ->
  lastRefill b + 1000 <= clock w (ticks w) ->
  fst (consumeToken provider w) = true
  /\ bucketState (snd (consumeToken provider w)) provider 9
       (clock w (ticks w)).
Proof.
  intros Hb H0 Hmax Hrate Hidle.
  assert (Hst : bucketState w provider (tokens b) (lastRefill b)).
  { exists b. rewrite Hmax, Hrate. repeat split; reflexivity || assumption. }
  destruct (consumeToken_bucketState provider w (tokens b) (lastRefill b)
              (clock w (ticks w) - lastRefill b) Hst eq_refl)
    as (_ & _ & _ & Hgrant).
  set (d := clock w (ticks w) - lastRefill b) in *.
  assert (Hd : (1000 <= inject_Z d)%Q).
  { change 1000%Q with (inject_Z 1000). rewrite <- Zle_Qle. subst d. lia. }
  assert (HR : (Qmin 10 (tokens b + inject_Z d / 1000 * 10) == 10)%Q).
  { apply Q.min_l. rewrite refill_amount. unfold Qdiv.
    change (/ 100)%Q with (1 # 100)%Q. lra. }
  destruct Hgrant as [Hres Hst']; [rewrite HR; discriminate|].
  split; [exact Hres|].
  eapply bucketState_Qeq; [|exact Hst']. rewrite HR. reflexivity.
Qed.

Lemma granted_budget provider n : forall w T L,
  bucketState w provider T L -> (0 <= T)%Q ->
  monotoneClock (clock w) -> L <= clock w (ticks w) ->
  exists T',
    bucketState (snd (consumeTimes n provider w)) provider T'
      (match n with O => L | S k => clock w (ticks w + k) end)
    /\ (0 <= T')%Q
    /\ (inject_Z (countGranted (fst (consumeTimes n provider w))) + T'
        <= T + (inject_Z (match n with O => L | S k => clock w (ticks w + k) end)
                - inject_Z L) * (1 # 100))%Q.
Proof.
  induction n as [|n IH]; intros w T L Hst HT Hmono HL.
  - exists T. change (consumeTimes 0 provider w) with (@nil bool, w).
    cbn [fst snd countGranted]. split; [exact Hst|]. split; [exact HT|].
    change (inject_Z 0) with 0%Q. lra.
  - rewrite consumeTimes_succ. cbn [fst snd countGranted].
    destruct (consumeToken_bucketState provider w T L
                (clock w (ticks w) - L) Hst eq_refl)
      as (Hc & Htk & Hrefuse & Hgrant).
    set (now := clock w (ticks w)) in *.
    set (R := Qmin 10 (T + inject_Z (now - L) / 1000 * 10)%Q) in *.
    assert (Hd : (0 <= inject_Z now - inject_Z L)%Q).
    { rewrite <- inject_Z_sub. change 0%Q with (inject_Z 0).
      rewrite <- Zle_Qle. lia. }
    assert (HRle : (R <= T + (inject_Z now - inject_Z L) * (1 # 100))%Q).
    { subst R. rewrite refill_amount, inject_Z_sub. unfold Qdiv.
      change (/ 100)%Q with (1 # 100)%Q. apply Q.le_min_r. }
    assert (HR0 : (0 <= R)%Q).
    { subst R. apply Q.min_glb; [discriminate|].
      rewrite refill_amount, inject_Z_sub. unfold Qdiv.
      change (/ 100)%Q with (1 # 100)%Q. lra. }
    set (w1 := snd (consumeToken provider w)) in *.
    assert (Hmono1 : monotoneClock (clock w1)) by (rewrite Hc; exact Hmono).
    assert (HL1 : now <= clock w1 (ticks w1)).
    { rewrite Hc, Htk. apply Hmono. lia. }
    assert (Hlast : match n with
                    | O => now
                    | S k => clock w1 (ticks w1 + k)
                    end = clock w (ticks w + n)).
    { destruct n as [|k]; [subst now; f_equal; lia|].
      rewrite Hc, Htk. f_equal. lia. }
    destruct (Qlt_le_dec R 1) as [Hlt | Hge].
    + destruct (Hrefuse Hlt) as [Hres Hst1]. rewrite Hres.
      destruct (IH w1 R now Hst1 HR0 Hmono1 HL1) as (T' & Hst' & HT' & Hbound).
      rewrite Hlast in Hst', Hbound.
      exists T'. split; [exact Hst'|]. split; [exact HT'|].
      rewrite inject_Z_plus. change (inject_Z 0) with 0%Q. lra.
    + destruct (Hgrant Hge) as [Hres Hst1]. rewrite Hres.
      destruct (IH w1 (R - 1)%Q now Hst1 ltac:(lra) Hmono1 HL1)
        as (T' & Hst' & HT' & Hbound).
      rewrite Hlast in Hst', Hbound.
      exists T'. split; [exact Hst'|]. split; [exact HT'|].
      rewrite inject_Z_plus. change (inject_Z 1) with 1%Q. lra.
Qed.

(** X9: under a clock that never runs backwards, the calls granted to
    one provider in any run of calls number at most the tokens held at
    its start, hence at most ten, plus ten per second elapsed between
    the refill before the run and its last call; the same bound holds
    from the first call for a provider. *)
Theorem grants_bounded_by_rate provider w n :
  monotoneClock (clock w) ->
  (forall T L,
      bucketState w provider T L -> (0 <= T)%Q -> (T <= 10)%Q ->
      L <= clock w (ticks w) ->
      (inject_Z (countGranted (fst (consumeTimes (S n) provider w)))
       <= 10 + inject_Z (clock w (ticks w + n) - L) / 100)%Q)
  /\ (rateBuckets w !! provider = None ->
      (inject_Z (countGranted (fst (consumeTimes (S n) provider w)))
       <= 10 + inject_Z (clock w (ticks w + S n) - clock w (ticks w)) / 100)%Q).
Proof.
  intros Hmono. split.
  - intros T L Hst HT0 HT10 HL.
    destruct (granted_budget provider (S n) w T L Hst HT0 Hmono HL)
      as (T' & _ & HT' & Hbound).
    rewrite inject_Z_sub. unfold Qdiv. change (/ 100)%Q with (1 # 100)%Q.
    lra.
  - intros Hfresh.
    set (w0 := mkWorld
                 (<[provider := mkBucket 10%Q (clock w (ticks w)) 10%Q 10%Q]>
                    (rateBuckets w))
                 (clock w) (S (ticks w)) (calls w)).
    assert (Hsame : consumeTimes (S n) provider w
                    = consumeTimes (S n) provider w0).
    { rewrite !consumeTimes_succ.
      rewrite (consumeToken_fresh_as_known provider w Hfresh). reflexivity. }
    assert (Hst0 : bucketState w0 provider 10 (clock w (ticks w))).
    { eexists. split; [apply lookup_insert_eq|]. simpl.
      repeat split; reflexivity. }
    destruct (granted_budget provider (S n) w0 10 (clock w (ticks w)) Hst0
                ltac:(discriminate) Hmono
                ltac:(simpl; apply Hmono; lia))
      as (T' & _ & HT' & Hbound).
    rewrite Hsame. simpl clock in Hbound. simpl ticks in Hbound.
    replace (S (ticks w + n))%nat with (ticks w + S n)%nat in Hbound by lia.
    rewrite inject_Z_sub. unfold Qdiv. change (/ 100)%Q with (1 # 100)%Q.
    lra.
Qed.

Lemma grants_bounded_by_rate_witness :
  (inject_Z (countGranted
               (fst (consumeTimes 15 "xai"
                       (mkWorld ∅ (steadyClock 1000 20) 0 []))))
   <= 10 + inject_Z (steadyClock 1000 20 15 - steadyClock 1000 20 0) / 100)%Q.
Proof.
  apply (proj2 (grants_bounded_by_rate "xai"
                  (mkWorld ∅ (steadyClock 1000 20) 0 []) 14
                  ltac:(intros i j Hij; unfold steadyClock; simpl; lia))).
  reflexivity.
Defined.

Lemma idle_second_refills_bucket_witness :
  fst (consumeToken "brave" drainedWorld) = true.
Proof.
  apply (idle_second_refills_bucket "brave" drainedWorld
           (mkBucket 0%Q 500 10%Q 10%Q)).
  - reflexivity.
  - simpl. discriminate.
  - reflexivity.
  - reflexivity.
  - simpl. lia.
Defined.

(* ------------------------------------------------------------------ *)
(** ** More on the provider factory                                    *)
(* ------------------------------------------------------------------ *)

Lemma falsy_false s : falsy s = false -> exists k, s = Some k /\ k <> "".
Proof.
  destruct s as [[|c k]|]; try discriminate.
  intros _. eexists. split; [reflexivity | discriminate].
Qed.

(** X10: a client that [buildProvider] returns is of the class that
    belongs to the requested name and is built from non-empty
    credentials, each of them the environment's value or, when the
    variable is not set, the configuration's; Google needs both of its
    credentials. *)
Theorem buildProvider_sound env name config inst :
  buildProvider env name config = Some inst ->
  (name = "google"
   /\ exists k c,
        inst = GoogleSearchProvider k c /\ k <> "" /\ c <> ""
        /\ resolvedCredential env config "GOOGLE_SEARCH_API_KEY"
             cfg_google google_apiKey = Some k
        /\ resolvedCredential env config "GOOGLE_SEARCH_CX"
             cfg_google google_cx = Some c)
  \/ (name = "brave"
      /\ exists k,
           inst = BraveSearchProvider k /\ k <> ""
           /\ resolvedCredential env config "BRAVE_SEARCH_API_KEY"
                cfg_brave key_apiKey = Some k)
  \/ (name = "xai"
      /\ exists k,
           inst = XaiSearchProvider k /\ k <> ""
           /\ resolvedCredential env config "XAI_API_KEY"
                cfg_xai key_apiKey = Some k).
Proof.
  unfold buildProvider, resolvedCredential, configuredCredential.
  destruct (String.eqb_spec name "google") as [-> | _].
  { destruct (falsy (nullish (env !! "GOOGLE_SEARCH_API_KEY") _)) eqn:Hk;
      [discriminate|].
    destruct (falsy (nullish (env !! "GOOGLE_SEARCH_CX") _)) eqn:Hc;
      [discriminate|].
    apply falsy_false in Hk as (k & Hk & Hkne).
    apply falsy_false in Hc as (c & Hc & Hcne).
    cbn [orb]. rewrite Hk, Hc. intros [= <-].
    left. split; [reflexivity|]. exists k, c. auto. }
  destruct (String.eqb_spec name "brave") as [-> | _].
  { destruct (falsy (nullish (env !! "BRAVE_SEARCH_API_KEY") _)) eqn:Hk;
      [discriminate|].
    apply falsy_false in Hk as (k & Hk & Hkne). rewrite Hk. intros [= <-].
    right. left. split; [reflexivity|]. exists k. auto. }
  destruct (String.eqb_spec name "xai") as [-> | _]; [|discriminate].
  destruct (falsy (nullish (env !! "XAI_API_KEY") _)) eqn:Hk; [discriminate|].
  apply falsy_false in Hk as (k & Hk & Hkne). rewrite Hk. intros [= <-].
  right. right. split; [reflexivity|]. exists k. auto.
Qed.

Lemma buildProvider_sound_witness :
  exists k, BraveSearchProvider "test-brave-key" = BraveSearchProvider k
            /\ k <> "".
Proof.
  destruct (buildProvider_sound sampleEnv "brave" emptyConfig
              (BraveSearchProvider "test-brave-key") eq_refl)
    as [[H _] | [(_ & k & Hk & Hne & _) | [H _]]];
    [discriminate H | | discriminate H].
  exists k. split; assumption.
Defined.

(** X11: a provider is unavailable when one of its environment
    variables is set to the empty string, whatever the configuration
    holds, and Google is unavailable when either of its two credentials
    is set nowhere. *)
Theorem buildProvider_unavailable env config :
  (env !! "BRAVE_SEARCH_API_KEY" = Some "" ->
   buildProvider env "brave" config = None)
  /\ (env !! "XAI_API_KEY" = Some "" ->
      buildProvider env "xai" config = None)
  /\ (env !! "GOOGLE_SEARCH_API_KEY" = Some ""
      \/ env !! "GOOGLE_SEARCH_CX" = Some "" ->
      buildProvider env "google" config = None)
  /\ (resolvedCredential env config "GOOGLE_SEARCH_API_KEY"
        cfg_google google_apiKey = None
      \/ resolvedCredential env config "GOOGLE_SEARCH_CX"
           cfg_google google_cx = None ->
      buildProvider env "google" config = None).
Proof.
  unfold buildProvider, resolvedCredential, configuredCredential.
  repeat split.
  - intros H. rewrite H. reflexivity.
  - intros H. rewrite H. reflexivity.
  - intros [H | H]; rewrite H;
      cbn [String.eqb Ascii.eqb Bool.eqb nullish falsy orb];
      [reflexivity | rewrite orb_true_r; reflexivity].
  - intros [H | H]; cbn [String.eqb Ascii.eqb Bool.eqb]; rewrite H;
      cbn [falsy orb]; [reflexivity | rewrite orb_true_r; reflexivity].
Qed.

Lemma buildProvider_unavailable_witness :
  buildProvider (<["BRAVE_SEARCH_API_KEY" := ""]> ∅) "brave"
    (braveConfig "config-key") = None
  /\ buildProvider ∅ "google" googleKeyOnlyConfig = None.
Proof.
  split.
  - apply (proj1 (buildProvider_unavailable
                    (<["BRAVE_SEARCH_API_KEY" := ""]> ∅)
                    (braveConfig "config-key"))).
    reflexivity.
  - apply (proj2 (proj2 (proj2 (buildProvider_unavailable
                                  ∅ googleKeyOnlyConfig)))).
    right. reflexivity.
Defined.

(* ------------------------------------------------------------------ *)
(** ** The requested count                                             *)
(* ------------------------------------------------------------------ *)

Lemma clampCount_bounds_aux rawCount :
  (1 <= clampCount rawCount)%Q /\ (clampCount rawCount <= 20)%Q.
Proof.
  unfold clampCount. split; [apply Q.le_max_l|].
  apply Q.max_lub; [discriminate | apply Q.le_min_r].
Qed.

(** X12: the count handed to a back end lies between 1 and 20, is the
    requested count when that lies between 1 and 20, and is 5 when no
    count is requested. *)
Theorem clampCount_bounds rawCount :
  (1 <= clampCount rawCount)%Q /\ (clampCount rawCount <= 20)%Q
  /\ (forall q, rawCount = Some q -> (1 <= q)%Q -> (q <= 20)%Q ->
        (clampCount rawCount == q)%Q)
  /\ (rawCount = None -> (clampCount rawCount == 5)%Q).
Proof.
  unfold clampCount. split; [apply Q.le_max_l|]. split.
  - apply Q.max_lub; [discriminate | apply Q.le_min_r].
  - split.
    + intros q -> H1 H20. cbn [default].
      rewrite (Q.min_l q 20 H20). apply Q.max_r. exact H1.
    + intros ->. reflexivity.
Qed.

Lemma clampCount_bounds_witness :
  (clampCount (Some 7%Q) == 7)%Q /\ (clampCount (Some 100%Q) <= 20)%Q.
Proof.
  split.
  - apply (proj1 (proj2 (proj2 (clampCount_bounds (Some 7%Q)))) 7%Q eq_refl);
      discriminate.
  - apply (proj1 (proj2 (clampCount_bounds (Some 100%Q)))).
Defined.

(* ------------------------------------------------------------------ *)
(** ** More on the handler                                             *)
(* ------------------------------------------------------------------ *)


Section HandlerOutcomes.

Variable new_URL : string -> option URL.
Variable isIP : string -> Z.
Variable env : gmap string string.
Variable backend : World -> ProviderInstance -> string -> Q -> SearchResponse.
Variable config : WebSearchPluginConfig.

Abbreviation attempt := (tryProvider new_URL isIP env backend config).
Abbreviation attempts := (tryProviders new_URL isIP env backend config).
Abbreviation handle := (handler new_URL isIP env backend config).
Abbreviation kept := (filterResults new_URL isIP).




End HandlerOutcomes.

Section HandlerEffects.

Variable new_URL : string -> option URL.
Variable isIP : string -> Z.
Variable env : gmap string string.
Variable backend : World -> ProviderInstance -> string -> Q -> SearchResponse.
Variable config : WebSearchPluginConfig.

Abbreviation attempt := (tryProvider new_URL isIP env backend config).
Abbreviation attempts := (tryProviders new_URL isIP env backend config).
Abbreviation handle := (handler new_URL isIP env backend config).


Lemma tryProviders_step query count name rest errors w :
  exists errors',
    attempts query count (name :: rest) errors w
    = attempts query count rest errors' (snd (attempt query count name w))
    \/ attempts query count (name :: rest) errors w
       = (fst (attempts query count (name :: rest) errors w),
          snd (attempt query count name w)).
Proof.
  destruct (attempt query count name w) as [[d | result] w1] eqn:Htry.
  - exists (errors ++ [d]). left.
    apply (tryProviders_skip _ _ _ _ _ _ _ _ rest errors _ _ _ Htry).
  - exists errors. right.
    rewrite (tryProviders_return _ _ _ _ _ _ _ _ rest errors _ _ _ Htry).
    reflexivity.
Qed.



Lemma bucketsOk_calls w issued :
  bucketsOk w ->
  bucketsOk (mkWorld (rateBuckets w) (clock w) (ticks w) issued).
Proof. intros H. exact H. Qed.

Lemma tryProvider_bucketsOk query count name w :
  monotoneClock (clock w) -> bucketsOk w ->
  bucketsOk (snd (attempt query count name w))
  /\ clock (snd (attempt query count name w)) = clock w.
Proof.
  intros Hmono Hok.
  pose proof (consumeToken_bucketsOk name w Hmono Hok) as Hok1.
  pose proof (consumeToken_clock name w) as (Hclock & _ & _).
  destruct (tryProvider_attempt new_URL isIP env backend config
              query count name w)
    as [Hb | inst w1 Hb Hc | inst w1 msg Hb Hc Hr | inst w1 raw Hb Hc Hr];
    cbn [snd]; rewrite ?Hc in Hok1, Hclock; cbn [snd] in Hok1, Hclock.
  - split; [exact Hok | reflexivity].
  - split; [exact Hok1 | exact Hclock].
  - split; [apply bucketsOk_calls; exact Hok1 | exact Hclock].
  - split; [apply bucketsOk_calls; exact Hok1 | exact Hclock].
Qed.

Lemma tryProviders_bucketsOk query count order : forall errors w,
  monotoneClock (clock w) -> bucketsOk w ->
  bucketsOk (snd (attempts query count order errors w))
  /\ clock (snd (attempts query count order errors w)) = clock w.
Proof.
  induction order as [|name rest IH]; intros errors w Hmono Hok.
  - split; [exact Hok | reflexivity].
  - destruct (tryProvider_bucketsOk query count name w Hmono Hok)
      as [Hok1 Hclock].
    destruct (tryProviders_step query count name rest errors w)
      as (errors' & [Hgo | Hstop]).
    + rewrite Hgo.
      destruct (IH errors' (snd (attempt query count name w)))
        as [Hok2 Hclock2]; [rewrite Hclock; exact Hmono | exact Hok1 |].
      split; [exact Hok2 | rewrite Hclock2; exact Hclock].
    + rewrite Hstop. cbn [snd]. split; assumption.
Qed.

(** X15: under a clock that never runs backwards, an invocation of the
    handler keeps the invariant of the bucket map, so that every bucket
    holds between zero and [maxTokens] tokens when it returns, whatever
    the back ends answer. *)
Theorem handler_keeps_tokens_in_range args w :
  monotoneClock (clock w) -> bucketsOk w ->
  bucketsOk (snd (handle args w))
  /\ tokensInRange (snd (handle args w))
  /\ clock (snd (handle args w)) = clock w.
Proof.
  intros Hmono Hok. unfold handler. cbv zeta.
  destruct (tryProviders_bucketsOk (arg_query args)
              (clampCount (arg_count args))
              (candidateOrder config (arg_provider args)) [] w Hmono Hok)
    as [Hok' Hclock].
  split; [exact Hok'|]. split; [|exact Hclock].
  intros provider bucket Hb. apply (Hok' provider bucket Hb).
Qed.


End HandlerEffects.

Lemma handler_keeps_tokens_in_range_witness :
  tokensInRange
    (snd (sampleHandler (mkArgs "test" None None)
            (mkWorld ∅ (steadyClock 0 40) 0 []))).
Proof.
  apply (handler_keeps_tokens_in_range Platform.simpleURL Platform.isIP
           sampleEnv sampleBackend emptyConfig (mkArgs "test" None None)
           (mkWorld ∅ (steadyClock 0 40) 0 [])).
  - intros i j Hij. unfold steadyClock. simpl. lia.
  - intros provider bucket H. simpl in H. rewrite lookup_empty in H.
    discriminate H.
Defined.


(* ------------------------------------------------------------------ *)
(** ** The back-end clients                                            *)
(* ------------------------------------------------------------------ *)

Lemma String_slice0_length n : forall s,
  (String.length (String_slice0 n s) <= n)%nat.
Proof.
  induction n as [|n IH]; intros [|c s]; simpl; try lia.
  specialize (IH s). lia.
Qed.

Lemma String_slice0_prefix n : forall s,
  JS.startsWith s (String_slice0 n s) = true.
Proof.
  induction n as [|n IH]; intros [|c s]; simpl; try reflexivity.
  rewrite Ascii.eqb_refl. apply IH.
Qed.

Lemma String_slice0_short n : forall s,
  (String.length s <= n)%nat -> String_slice0 n s = s.
Proof.
  induction n as [|n IH]; intros [|c s]; simpl; intros H;
    try reflexivity; try lia.
  rewrite IH by lia. reflexivity.
Qed.

Lemma httpError_reports {J} api (r : Response J) :
  reportsHttpFailure api r (inl (httpError api r)).
Proof.
  exists (String_slice0 200 (default "" (response_text r))).
  split; [reflexivity|].
  split; [apply String_slice0_length|].
  split; [apply String_slice0_prefix | apply String_slice0_short].
Qed.

(** X17: whatever count the caller asks for, the number of results a
    request of the handler asks a back end for lies between 1 and that
    API's limit: 20 for Brave, 10 for Google and for xAI, whose prompt
    names the same number as its search parameters. *)
Theorem provider_requests_within_api_limits rawCount apiKey cx query :
  let count := clampCount rawCount in
  (1 <= brave_count (braveRequest apiKey query count) <= 20)%Q
  /\ (brave_count (braveRequest apiKey query count) == count)%Q
  /\ (1 <= google_num (googleRequest apiKey cx query count) <= 10)%Q
  /\ (1 <= xai_max_search_results (xaiRequest apiKey query count) <= 10)%Q
  /\ xai_prompt_top (xaiRequest apiKey query count)
     = xai_max_search_results (xaiRequest apiKey query count).
Proof.
  intros count.
  destruct (clampCount_bounds_aux rawCount) as [Hlo Hhi].
  fold count in Hlo, Hhi. cbn [braveRequest googleRequest xaiRequest
    brave_count google_num xai_max_search_results xai_prompt_top].
  assert (Hb : (Qmin count 20 == count)%Q) by (apply Q.min_l; exact Hhi).
  repeat split.
  - rewrite Hb. exact Hlo.
  - apply Q.le_min_r.
  - exact Hb.
  - apply Q.min_glb; [exact Hlo | discriminate].
  - apply Q.le_min_r.
  - apply Q.min_glb; [exact Hlo | discriminate].
  - apply Q.le_min_r.
Qed.

Section ClientFailures.

Variable fetch_brave : BraveRequest -> Fetched BraveData.
Variable fetch_google : GoogleRequest -> Fetched GoogleData.
Variable fetch_xai : XaiRequest -> Fetched XaiData.
Variable JSON_parse : string -> option (list (option XaiItem)).

Abbreviation searchWith :=
  (providerSearch fetch_brave fetch_google fetch_xai JSON_parse).

(** X18: a client that receives a response that is not ok rejects, and
    the message names the API and the status and quotes the first 200
    characters of the body at most (all of a shorter body, nothing when
    the body cannot be read); the JSON of such a response is never
    looked at. *)
Theorem provider_http_failure_reported apiKey cx query count :
  (forall r,
     fetch_brave (braveRequest apiKey query count) = inr r ->
     response_ok r = false ->
     reportsHttpFailure "Brave Search" r
       (searchWith (BraveSearchProvider apiKey) query count))
  /\ (forall r,
        fetch_google (googleRequest apiKey cx query count) = inr r ->
        response_ok r = false ->
        reportsHttpFailure "Google Search" r
          (searchWith (GoogleSearchProvider apiKey cx) query count))
  /\ (forall r,
        fetch_xai (xaiRequest apiKey query count) = inr r ->
        response_ok r = false ->
        reportsHttpFailure "xAI" r
          (searchWith (XaiSearchProvider apiKey) query count)).
Proof.
  repeat split; intros r Hf Hok; cbn [providerSearch];
    unfold BraveSearchProvider_search, GoogleSearchProvider_search,
      XaiSearchProvider_search;
    rewrite Hf, Hok; cbn [negb]; apply httpError_reports.
Qed.

End ClientFailures.

Lemma provider_http_failure_reported_witness :
  reportsHttpFailure "Brave Search"
    (mkResponse (J := BraveData) false 429%N (Some "Too Many Requests")
                (inl "Unexpected token"))
    (inl "Brave Search API returned 429: Too Many Requests").
Proof.
  exact (proj1 (provider_http_failure_reported
                  (refuses 429%N "Too Many Requests" (Platform.freshWorld (Platform.frozenClock 0)))
                  (unreachable (Platform.freshWorld (Platform.frozenClock 0)))
                  (unreachable (Platform.freshWorld (Platform.frozenClock 0)))
                  sampleParse "test-brave-key" "test-cx" "test" 5%Q)
               _ eq_refl eq_refl).
Defined.

(* ------------------------------------------------------------------ *)
(** ** The array in the model's answer                                 *)
(* ------------------------------------------------------------------ *)

Lemma lacks_cons c d s :
  lacks c (String d s) <-> d <> c /\ lacks c s.
Proof.
  unfold lacks. cbn [JS.all]. rewrite andb_true_iff, negb_true_iff.
  rewrite Ascii.eqb_neq. tauto.
Qed.

Lemma fromFirstOpen_spec content s :
  fromFirstOpen content = Some s <->
  exists pre rest,
    content = pre +:+ String "[" rest /\ lacks "[" pre /\ s = String "[" rest.
Proof.
  revert s. induction content as [|c content IH]; intros s.
  - split; [discriminate|].
    intros ([|d pre] & rest & H & _); discriminate H.
  - cbn [fromFirstOpen]. destruct (Ascii.eqb_spec c "[") as [-> | Hc].
    + split.
      * intros [= <-]. exists "", content. repeat split.
      * intros ([|d pre] & rest & H & Hl & ->).
        -- cbn in H. rewrite H. reflexivity.
        -- cbn in H. injection H as <- _.
           apply lacks_cons in Hl as [Hd _]. congruence.
    + rewrite IH. split.
      * intros (pre & rest & -> & Hl & ->).
        exists (String c pre), rest. repeat split.
        apply lacks_cons. split; assumption.
      * intros ([|d pre] & rest & H & Hl & ->).
        -- cbn in H. injection H as -> _. congruence.
        -- cbn in H. injection H as <- ->.
           apply lacks_cons in Hl as [_ Hl].
           exists pre, rest. repeat split. exact Hl.
Qed.

Lemma uptoLastClose_none s : uptoLastClose s = None <-> lacks "]" s.
Proof.
  induction s as [|c s IH].
  - split; reflexivity.
  - cbn [uptoLastClose]. rewrite lacks_cons, <- IH.
    destruct (uptoLastClose s) as [t|].
    + split; [discriminate | intros [_ H]; discriminate H].
    + destruct (Ascii.eqb_spec c "]") as [-> | Hc].
      * split; [discriminate | intros [H _]; congruence].
      * split; auto.
Qed.

Lemma uptoLastClose_spec s t :
  uptoLastClose s = Some t <->
  exists body post,
    s = body +:+ String "]" post /\ lacks "]" post
    /\ t = body +:+ String "]" "".
Proof.
  revert t. induction s as [|c s IH]; intros t.
  - split; [discriminate|].
    intros ([|d body] & post & H & _); discriminate H.
  - cbn [uptoLastClose].
    destruct (uptoLastClose s) as [t'|] eqn:Hs.
    + split.
      * intros [= <-].
        destruct (proj1 (IH t') eq_refl) as (body & post & -> & Hl & ->).
        exists (String c body), post. repeat split. exact Hl.
      * intros ([|d body] & post & H & Hl & ->).
        -- cbn in H. injection H as -> ->.
           apply uptoLastClose_none in Hl. congruence.
        -- cbn in H. injection H as <- ->.
           assert (Hs' : Some t' = Some (body +:+ String "]" "")).
           { apply IH. exists body, post. repeat split. exact Hl. }
           injection Hs' as ->. reflexivity.
    + apply uptoLastClose_none in Hs.
      destruct (Ascii.eqb_spec c "]") as [-> | Hc].
      * split.
        -- intros [= <-]. exists "", s. repeat split. exact Hs.
        -- intros ([|d body] & post & H & Hl & ->).
           ++ reflexivity.
           ++ cbn in H. injection H as _ ->. exfalso.
              clear -Hs. induction body as [|e body IHb].
              ** cbn in Hs. apply lacks_cons in Hs as [H _]. congruence.
              ** cbn in Hs. apply lacks_cons in Hs as [_ H]. auto.
      * split; [discriminate|].
        intros ([|d body] & post & H & Hl & ->).
        -- cbn in H. injection H as -> _. congruence.
        -- cbn in H. injection H as _ ->. exfalso.
           clear -Hs. induction body as [|e body IHb].
           ++ cbn in Hs. apply lacks_cons in Hs as [H _]. congruence.
           ++ cbn in Hs. apply lacks_cons in Hs as [_ H]. auto.
Qed.

Lemma matchJsonArray_wrapped pre body post :
  lacks "[" pre -> lacks "]" post ->
  matchJsonArray (pre +:+ "[" +:+ body +:+ "]" +:+ post)
  = Some ("[" +:+ body +:+ "]").
Proof.
  intros Hpre Hpost. unfold matchJsonArray.
  assert (Hs : fromFirstOpen (pre +:+ "[" +:+ body +:+ "]" +:+ post)
               = Some ("[" +:+ body +:+ "]" +:+ post)).
  { apply fromFirstOpen_spec. exists pre, (body +:+ "]" +:+ post).
    repeat split. exact Hpre. }
  rewrite Hs. change ("[" +:+ body +:+ "]" +:+ post)
    with (String "[" (body +:+ String "]" post)).
  cbn [uptoLastClose].
  assert (Ht : uptoLastClose (body +:+ String "]" post)
               = Some (body +:+ String "]" "")).
  { apply uptoLastClose_spec. exists body, post. repeat split.
    exact Hpost. }
  rewrite Ht. reflexivity.
Qed.

(** X19: the text the xAI client hands to the JSON parser is the part
    of the model's answer from its first opening bracket to its last
    closing bracket, and there is a match exactly when a closing bracket
    follows an opening one. *)
Theorem matchJsonArray_spec content m :
  matchJsonArray content = Some m <->
  exists pre body post,
    content = pre +:+ "[" +:+ body +:+ "]" +:+ post
    /\ lacks "[" pre /\ lacks "]" post
    /\ m = "[" +:+ body +:+ "]".
Proof.
  unfold matchJsonArray. split.
  - destruct (fromFirstOpen content) as [s|] eqn:Hs; [|discriminate].
    apply fromFirstOpen_spec in Hs as (pre & rest & -> & Hpre & ->).
    intros Hm. cbn [uptoLastClose] in Hm.
    destruct (uptoLastClose rest) as [t|] eqn:Ht; [|discriminate].
    injection Hm as <-.
    apply uptoLastClose_spec in Ht as (body & post & -> & Hpost & ->).
    exists pre, body, post. repeat split; assumption.
  - intros (pre & body & post & -> & Hpre & Hpost & ->).
    apply matchJsonArray_wrapped; assumption.
Qed.

Lemma matchJsonArray_spec_witness :
  matchJsonArray fencedAnswer = Some "[{}, {}]".
Proof.
  apply (proj2 (matchJsonArray_spec fencedAnswer "[{}, {}]")).
  exists ("```json" +:+ JS.newline), "{}, {}", (JS.newline +:+ "```").
  repeat split.
Defined.

(* ------------------------------------------------------------------ *)
(** ** The results of the xAI client                                   *)
(* ------------------------------------------------------------------ *)

Lemma toIntegerOrInfinity_nonneg q :
  (0 <= q)%Q -> toIntegerOrInfinity q = Qfloor q /\ 0 <= Qfloor q.
Proof.
  intros Hq. unfold toIntegerOrInfinity.
  rewrite (proj2 (Qle_bool_iff 0 q) Hq). split; [reflexivity|].
  change 0 with (Qfloor 0). apply Qfloor_resp_le. exact Hq.
Qed.

Lemma Array_slice0_take {A} q (xs : list A) :
  exists n, Array_slice0 q xs = take n xs.
Proof. unfold Array_slice0. eexists. reflexivity. Qed.

Lemma Array_slice0_length {A} q (xs : list A) :
  (0 <= q)%Q ->
  (inject_Z (Z.of_nat (List.length (Array_slice0 q xs))) <= q)%Q.
Proof.
  intros Hq. destruct (toIntegerOrInfinity_nonneg q Hq) as [Ht Hf].
  unfold Array_slice0. rewrite Ht.
  destruct (Z.ltb_spec (Qfloor q) 0) as [Hneg | _]; [lia|].
  apply Qle_trans with (inject_Z (Qfloor q)); [|apply Qfloor_le].
  rewrite <- Zle_Qle, length_take. lia.
Qed.

Lemma Array_slice0_all {A} q (xs : list A) :
  (inject_Z (Z.of_nat (List.length xs)) <= q)%Q -> Array_slice0 q xs = xs.
Proof.
  intros Hlen.
  assert (Hq : (0 <= q)%Q).
  { apply Qle_trans with (inject_Z (Z.of_nat (List.length xs)));
      [|exact Hlen].
    change 0%Q with (inject_Z 0). rewrite <- Zle_Qle. lia. }
  destruct (toIntegerOrInfinity_nonneg q Hq) as [Ht Hf].
  pose proof (Qfloor_resp_le _ _ Hlen) as Hfl. rewrite Qfloor_Z in Hfl.
  unfold Array_slice0. rewrite Ht.
  destruct (Z.ltb_spec (Qfloor q) 0) as [Hneg | _]; [lia|].
  apply take_ge. lia.
Qed.

Lemma Array_slice0_fmap {A B} (f : A -> B) q (xs : list A) :
  Array_slice0 q (f <$> xs) = f <$> Array_slice0 q xs.
Proof.
  unfold Array_slice0. rewrite length_fmap, fmap_take. reflexivity.
Qed.

Lemma mapItems_length items results :
  mapItems items = Some results ->
  List.length results = List.length items.
Proof.
  revert results. induction items as [|[item|] items IH]; intros results.
  - intros [= <-]. reflexivity.
  - cbn [mapItems]. destruct (mapItems items) as [rs|]; [|discriminate].
    intros [= <-]. simpl. rewrite (IH rs eq_refl). reflexivity.
  - discriminate.
Qed.

Lemma mapItems_objects items :
  mapItems (Some <$> items) = Some (itemResult <$> items).
Proof.
  induction items as [|item items IH]; [reflexivity|].
  cbn [fmap list_fmap mapItems] in *. rewrite IH. reflexivity.
Qed.

Section XaiResults.

Variable fetch_xai : XaiRequest -> Fetched XaiData.
Variable JSON_parse : string -> option (list (option XaiItem)).

Abbreviation xaiSearch := (XaiSearchProvider_search fetch_xai JSON_parse).

Lemma parseModelText_length content count :
  (0 <= count)%Q ->
  (inject_Z (Z.of_nat (List.length (parseModelText JSON_parse content count)))
   <= count)%Q.
Proof.
  intros Hq. unfold parseModelText.
  destruct (matchJsonArray content) as [m|]; [|exact Hq].
  destruct (JSON_parse m) as [parsed|]; [|exact Hq].
  destruct (mapItems (Array_slice0 count parsed)) as [rs|] eqn:Hm;
    [|exact Hq].
  simpl. rewrite (mapItems_length _ _ Hm).
  apply Array_slice0_length. exact Hq.
Qed.

(** X20: on an ok response whose body is JSON the xAI client never
    rejects, whatever the model wrote; it returns at most [count]
    results; and when the body lists citations the results are the
    leading citations, with empty snippets, and the model's text is not
    read. *)
Theorem xai_search_settles_bounded apiKey query count r data :
  fetch_xai (xaiRequest apiKey query count) = inr r ->
  response_ok r = true ->
  response_json r = inr data ->
  exists results,
    xaiSearch apiKey query count = inr results
    /\ ((0 <= count)%Q ->
        (inject_Z (Z.of_nat (List.length results)) <= count)%Q)
    /\ (forall c cs,
          xai_citations data = Some (c :: cs) ->
          (exists n, results = citationResult <$> take n (c :: cs))
          /\ Forall (fun res => snippet res = "") results).
Proof.
  intros Hf Hok Hj. unfold XaiSearchProvider_search.
  rewrite Hf, Hok, Hj. cbn [negb].
  destruct (xai_citations data) as [[|c cs]|] eqn:Hc.
  - eexists. split; [reflexivity|]. split.
    + apply parseModelText_length.
    + intros c cs [=].
  - eexists. split; [reflexivity|]. split.
    + intros Hq. rewrite length_map. apply Array_slice0_length. exact Hq.
    + intros c' cs' [= <- <-].
      destruct (Array_slice0_take count (c :: cs)) as [n Hn].
      split; [exists n; rewrite Hn; reflexivity|].
      apply Forall_fmap, Forall_true. intros x. reflexivity.
  - eexists. split; [reflexivity|]. split.
    + apply parseModelText_length.
    + intros c cs [=].
Qed.

(** X21: when the body lists no citation and the model's answer holds
    a JSON array of objects, possibly wrapped in a code fence or other
    text without brackets, the xAI client returns the first [count]
    elements of that array, in order, missing fields read as empty
    strings. *)
Theorem xai_reads_fenced_array apiKey query count r data pre body post items :
  fetch_xai (xaiRequest apiKey query count) = inr r ->
  response_ok r = true ->
  response_json r = inr data ->
  xai_citations data = None \/ xai_citations data = Some [] ->
  firstChoiceContent data = Some (pre +:+ "[" +:+ body +:+ "]" +:+ post) ->
  lacks "[" pre -> lacks "]" post ->
  JSON_parse ("[" +:+ body +:+ "]") = Some (Some <$> items) ->
  xaiSearch apiKey query count = inr (itemResult <$> Array_slice0 count items)
  /\ ((inject_Z (Z.of_nat (List.length items)) <= count)%Q ->
      xaiSearch apiKey query count = inr (itemResult <$> items)).
Proof.
  intros Hf Hok Hj Hc Hcontent Hpre Hpost Hparse.
  assert (Hgoal : xaiSearch apiKey query count
                  = inr (itemResult <$> Array_slice0 count items)).
  { unfold XaiSearchProvider_search. rewrite Hf, Hok, Hj. cbn [negb].
    assert (Hm : matchJsonArray (pre +:+ "[" +:+ body +:+ "]" +:+ post)
                 = Some ("[" +:+ body +:+ "]")).
    { apply matchJsonArray_wrapped; assumption. }
    simpl in Hm, Hparse.
    destruct Hc as [-> | ->]; rewrite Hcontent; simpl default;
      unfold parseModelText; rewrite Hm, Hparse, Array_slice0_fmap,
        mapItems_objects; reflexivity. }
  split; [exact Hgoal|].
  intros Hlen. rewrite Hgoal, (Array_slice0_all _ _ Hlen). reflexivity.
Qed.

End XaiResults.

Lemma xai_search_settles_bounded_witness :
  exists results,
    XaiSearchProvider_search
      (answers sampleXaiData (Platform.freshWorld (Platform.frozenClock 0)))
      sampleParse "test-xai-key" "test" 5%Q = inr results
    /\ ((0 <= 5)%Q -> (inject_Z (Z.of_nat (List.length results)) <= 5)%Q)
    /\ (forall c cs,
          xai_citations sampleXaiData = Some (c :: cs) ->
          (exists n, results = citationResult <$> take n (c :: cs))
          /\ Forall (fun res => snippet res = "") results).
Proof.
  exact (xai_search_settles_bounded
           (answers sampleXaiData (Platform.freshWorld (Platform.frozenClock 0)))
           sampleParse "test-xai-key" "test" 5%Q _ sampleXaiData
           eq_refl eq_refl eq_refl).
Defined.

Lemma xai_reads_fenced_array_witness :
  XaiSearchProvider_search
    (answers sampleXaiData (Platform.freshWorld (Platform.frozenClock 0)))
    sampleParse "test-xai-key" "test" 5%Q
  = inr [ mkResult "" "" ""; mkResult "" "" "" ].
Proof.
  refine (proj2 (xai_reads_fenced_array
           (answers sampleXaiData (Platform.freshWorld (Platform.frozenClock 0)))
           sampleParse "test-xai-key" "test" 5%Q _ sampleXaiData
           ("```json" +:+ JS.newline) "{}, {}" (JS.newline +:+ "```")
           [ mkXaiItem None None None; mkXaiItem None None None ]
           eq_refl eq_refl eq_refl (or_introl eq_refl) eq_refl
           eq_refl eq_refl eq_refl) _).
  vm_compute. discriminate.
Defined.

(* ------------------------------------------------------------------ *)
(** ** The handler over the clients                                    *)
(* ------------------------------------------------------------------ *)

Section Chain.

Variable new_URL : string -> option URL.
Variable isIP : string -> Z.
Variable env : gmap string string.
Variable backend : World -> ProviderInstance -> string -> Q -> SearchResponse.
Variable config : WebSearchPluginConfig.

Abbreviation attempt1 := (tryProvider new_URL isIP env backend config).
Abbreviation attemptAll := (tryProviders new_URL isIP env backend config).

Lemma tryProvider_not_configured query count name w :
  buildProvider env name config = None ->
  attempt1 query count name w = (inl (name +:+ ": not configured"), w).
Proof. intros H. unfold tryProvider. rewrite H. reflexivity. Qed.

Lemma tryProvider_granted query count name inst w :
  buildProvider env name config = Some inst ->
  fst (consumeToken name w) = true ->
  fst (attempt1 query count name w)
  = match backend (snd (consumeToken name w)) inst query count with
    | inr raw =>
        inr (successResult name query (filterResults new_URL isIP raw))
    | inl msg => inl (name +:+ ": " +:+ msg)
    end.
Proof.
  intros Hb Hg. unfold tryProvider. rewrite Hb.
  unfold mbind, M_bind, mret, M_ret.
  destruct (consumeToken name w) as [granted w1]. simpl in Hg. subst granted.
  cbn [negb fst snd]. unfold search.
  destruct (backend w1 inst query count); reflexivity.
Qed.

Lemma tryProviders_unconfigured query count skipped : forall rest errors w,
  Forall (fun n => buildProvider env n config = None) skipped ->
  attemptAll query count (skipped ++ rest) errors w
  = attemptAll query count rest
      (errors ++ ((fun n => n +:+ ": not configured") <$> skipped)) w.
Proof.
  induction skipped as [|n skipped IH]; intros rest errors w Hs.
  - simpl. rewrite app_nil_r. reflexivity.
  - inversion Hs as [|? ? Hn Hs']; subst.
    rewrite <- app_comm_cons.
    rewrite (tryProviders_skip _ _ _ _ _ _ _ _ _ _ _ _ _
               (tryProvider_not_configured query count n w Hn)).
    rewrite (IH rest _ w Hs'). cbn [fmap list_fmap].
    rewrite <- app_assoc. reflexivity.
Qed.

(** The first candidate that is configured answers. *)
Lemma tryProviders_first_available query count skipped name rest inst raw w :
  Forall (fun n => buildProvider env n config = None) skipped ->
  buildProvider env name config = Some inst ->
  fst (consumeToken name w) = true ->
  (forall w', backend w' inst query count = inr raw) ->
  fst (attemptAll query count (skipped ++ name :: rest) [] w)
  = successResult name query (filterResults new_URL isIP raw).
Proof.
  intros Hs Hb Hg Hr. rewrite (tryProviders_unconfigured _ _ _ _ _ _ Hs).
  rewrite tryProviders_cons.
  pose proof (tryProvider_granted query count name inst w Hb Hg) as Ht.
  rewrite Hr in Ht.
  destruct (attempt1 query count name w) as [[d | result] w1];
    cbn [fst] in Ht; [discriminate|].
  injection Ht as ->. reflexivity.
Qed.

(** The only configured candidate fails. *)
Lemma tryProviders_only_available_fails
    query count skipped name rest inst msg w :
  Forall (fun n => buildProvider env n config = None) skipped ->
  Forall (fun n => buildProvider env n config = None) rest ->
  buildProvider env name config = Some inst ->
  fst (consumeToken name w) = true ->
  (forall w', backend w' inst query count = inl msg) ->
  fst (attemptAll query count (skipped ++ name :: rest) [] w)
  = failureResult
      (((fun n => n +:+ ": not configured") <$> skipped)
       ++ (name +:+ ": " +:+ msg)
       :: ((fun n => n +:+ ": not configured") <$> rest)).
Proof.
  intros Hs Hrest Hb Hg Hr. rewrite (tryProviders_unconfigured _ _ _ _ _ _ Hs).
  rewrite tryProviders_cons.
  pose proof (tryProvider_granted query count name inst w Hb Hg) as Ht.
  rewrite Hr in Ht.
  destruct (attempt1 query count name w) as [[d | result] w1];
    cbn [fst] in Ht; [|discriminate].
  injection Ht as ->.
  pose proof (tryProviders_unconfigured query count rest []
                (([] ++ ((fun n => n +:+ ": not configured") <$> skipped))
                 ++ [name +:+ ": " +:+ msg]) w1 Hrest) as Hend.
  rewrite app_nil_r in Hend.
  change (name +:+ String ":" (String " " msg)) with (name +:+ ": " +:+ msg).
  rewrite Hend.
  cbn [tryProviders]. unfold mret, M_ret. cbn [fst app].
  rewrite <- app_assoc. reflexivity.
Qed.

End Chain.

Section ClientsEndToEnd.

Variable new_URL : string -> option URL.
Variable isIP : string -> Z.
Variable env : gmap string string.
Variable config : WebSearchPluginConfig.
Variable fetch_brave : World -> BraveRequest -> Fetched BraveData.
Variable fetch_google : World -> GoogleRequest -> Fetched GoogleData.
Variable fetch_xai : World -> XaiRequest -> Fetched XaiData.
Variable JSON_parse : string -> option (list (option XaiItem)).

Abbreviation webSearch :=
  (handler new_URL isIP env
     (clients fetch_brave fetch_google fetch_xai JSON_parse) config).

Abbreviation unconfigured :=
  (Forall (fun n => buildProvider env n config = None)).

(** X22: when every candidate before Brave is not configured, Brave is
    configured and granted a token, and the Brave API answers the
    request for the clamped count with an ok JSON body, the handler
    returns Brave's results: one per item of [web.results], in order,
    [description] as the snippet, a missing field as the empty string,
    less those with a private URL; a body without [web.results] gives
    no result. *)
Theorem handler_brave_end_to_end args w skipped rest apiKey r data :
  candidateOrder config (arg_provider args) = skipped ++ "brave" :: rest ->
  unconfigured skipped ->
  buildProvider env "brave" config = Some (BraveSearchProvider apiKey) ->
  fst (consumeToken "brave" w) = true ->
  (forall w',
     fetch_brave w' (braveRequest apiKey (arg_query args)
                                  (clampCount (arg_count args))) = inr r) ->
  response_ok r = true ->
  response_json r = inr data ->
  fst (webSearch args w)
  = successResult "brave" (arg_query args)
      (filterResults new_URL isIP
         (braveResult <$> default [] (optChain (brave_web data) web_results))).
Proof.
  intros Horder Hs Hb Hg Hf Hok Hj. unfold handler. rewrite Horder.
  apply (tryProviders_first_available _ _ _ _ _ _ _ _ _ _ _ _ _ Hs Hb Hg).
  intros w'. unfold clients. cbn [providerSearch].
  unfold BraveSearchProvider_search. rewrite Hf, Hok, Hj. reflexivity.
Qed.

(** X23: when every candidate before Google is not configured, Google
    is configured and granted a token, and the Google API answers the
    request for at most ten results with an ok JSON body, the handler
    returns Google's results: one per element of [items], in order,
    [link] as the URL, a missing field as the empty string, less those
    with a private URL; a body without [items] gives no result. *)
Theorem handler_google_end_to_end args w skipped rest apiKey cx r data :
  candidateOrder config (arg_provider args) = skipped ++ "google" :: rest ->
  unconfigured skipped ->
  buildProvider env "google" config = Some (GoogleSearchProvider apiKey cx) ->
  fst (consumeToken "google" w) = true ->
  (forall w',
     fetch_google w' (googleRequest apiKey cx (arg_query args)
                                    (clampCount (arg_count args))) = inr r) ->
  response_ok r = true ->
  response_json r = inr data ->
  fst (webSearch args w)
  = successResult "google" (arg_query args)
      (filterResults new_URL isIP
         (googleResult <$> default [] (google_items data))).
Proof.
  intros Horder Hs Hb Hg Hf Hok Hj. unfold handler. rewrite Horder.
  apply (tryProviders_first_available _ _ _ _ _ _ _ _ _ _ _ _ _ Hs Hb Hg).
  intros w'. unfold clients. cbn [providerSearch].
  unfold GoogleSearchProvider_search. rewrite Hf, Hok, Hj. reflexivity.
Qed.

(** X24: when Brave is the only configured candidate and its API
    refuses the request, or cannot be reached, the handler returns the
    failure text with one line per candidate, in order: Brave's line
    carries the status and the excerpt of the body, or the message of
    the transport error, and the others read "not configured". *)
Theorem handler_reports_client_failure args w skipped rest apiKey :
  candidateOrder config (arg_provider args) = skipped ++ "brave" :: rest ->
  unconfigured skipped -> unconfigured rest ->
  buildProvider env "brave" config = Some (BraveSearchProvider apiKey) ->
  fst (consumeToken "brave" w) = true ->
  (forall r,
     (forall w',
        fetch_brave w' (braveRequest apiKey (arg_query args)
                                     (clampCount (arg_count args))) = inr r) ->
     response_ok r = false ->
     fst (webSearch args w)
     = failureResult
         (((fun n => n +:+ ": not configured") <$> skipped)
          ++ ("brave: " +:+ httpError "Brave Search" r)
          :: ((fun n => n +:+ ": not configured") <$> rest)))
  /\ (forall rejection,
        (forall w',
           fetch_brave w' (braveRequest apiKey (arg_query args)
                                        (clampCount (arg_count args)))
           = inl rejection) ->
        fst (webSearch args w)
        = failureResult
            (((fun n => n +:+ ": not configured") <$> skipped)
             ++ ("brave: " +:+ rejection)
             :: ((fun n => n +:+ ": not configured") <$> rest))).
Proof.
  intros Horder Hs Hrest Hb Hg. split.
  - intros r Hf Hok. unfold handler. rewrite Horder.
    apply (tryProviders_only_available_fails
             _ _ _ _ _ _ _ _ _ _ _ _ _ Hs Hrest Hb Hg).
    intros w'. unfold clients. cbn [providerSearch].
    unfold BraveSearchProvider_search. rewrite Hf, Hok. reflexivity.
  - intros rejection Hf. unfold handler. rewrite Horder.
    apply (tryProviders_only_available_fails
             _ _ _ _ _ _ _ _ _ _ _ _ _ Hs Hrest Hb Hg).
    intros w'. unfold clients. cbn [providerSearch].
    unfold BraveSearchProvider_search. rewrite Hf. reflexivity.
Qed.

End ClientsEndToEnd.

Lemma handler_brave_end_to_end_witness :
  fst (handler Platform.simpleURL Platform.isIP braveOnlyEnv
         (clients (answers sampleBraveData) unreachable unreachable
                  sampleParse)
         emptyConfig (mkArgs "test" None None)
         (Platform.freshWorld (Platform.frozenClock 0)))
  = successResult "brave" "test"
      [ mkResult "Good" "https://example.com/1" "Public" ].
Proof.
  etransitivity.
  - apply (handler_brave_end_to_end Platform.simpleURL Platform.isIP
             braveOnlyEnv emptyConfig (answers sampleBraveData) unreachable
             unreachable sampleParse (mkArgs "test" None None)
             (Platform.freshWorld (Platform.frozenClock 0))
             ["google"] ["xai"] "test-brave-key"
             (mkResponse true 200%N None (inr sampleBraveData))
             sampleBraveData).
    + reflexivity.
    + repeat constructor.
    + reflexivity.
    + vm_compute. reflexivity.
    + intros w'. reflexivity.
    + reflexivity.
    + reflexivity.
  - vm_compute. reflexivity.
Defined.

Lemma handler_google_end_to_end_witness :
  fst (handler Platform.simpleURL Platform.isIP sampleEnv
         (clients unreachable (answers sampleGoogleData) unreachable
                  sampleParse)
         emptyConfig (mkArgs "test" (Some 50%Q) None)
         (Platform.freshWorld (Platform.frozenClock 0)))
  = successResult "google" "test"
      [ mkResult "Google Result" "https://example.com/1"
                 "A result from Google" ].
Proof.
  etransitivity.
  - apply (handler_google_end_to_end Platform.simpleURL Platform.isIP
             sampleEnv emptyConfig unreachable (answers sampleGoogleData)
             unreachable sampleParse (mkArgs "test" (Some 50%Q) None)
             (Platform.freshWorld (Platform.frozenClock 0))
             [] ["brave"; "xai"] "test-key" "test-cx"
             (mkResponse true 200%N None (inr sampleGoogleData))
             sampleGoogleData).
    + reflexivity.
    + constructor.
    + reflexivity.
    + vm_compute. reflexivity.
    + intros w'. reflexivity.
    + reflexivity.
    + reflexivity.
  - vm_compute. reflexivity.
Defined.

Lemma handler_reports_client_failure_witness :
  fst (handler Platform.simpleURL Platform.isIP braveOnlyEnv
         (clients (refuses 429%N "Too Many Requests") unreachable unreachable
                  sampleParse)
         emptyConfig (mkArgs "test" None None)
         (Platform.freshWorld (Platform.frozenClock 0)))
  = failureResult
      [ "google: not configured";
        "brave: Brave Search API returned 429: Too Many Requests";
        "xai: not configured" ].
Proof.
  etransitivity.
  - refine (proj1 (handler_reports_client_failure Platform.simpleURL
             Platform.isIP braveOnlyEnv emptyConfig
             (refuses 429%N "Too Many Requests") unreachable
             unreachable sampleParse (mkArgs "test" None None)
             (Platform.freshWorld (Platform.frozenClock 0))
             ["google"] ["xai"] "test-brave-key"
             eq_refl _ _ eq_refl eq_refl)
           (mkResponse false 429%N (Some "Too Many Requests")
                       (inl "Unexpected token")) _ eq_refl).
    + repeat constructor.
    + repeat constructor.
    + intros w'. reflexivity.
  - vm_compute. reflexivity.
Defined.
